(** * Condensed conversation memory: the [CondensedMemoryBlock] of the
      "Reducing Multi-Turn Confusion" notebook

    The notebook defines one class, [CondensedMemoryBlock], with a read
    method [_aget] and a write method [_aput].  [_aput] renders every chat
    message to a string, appends the strings to [current_memory], and then
    drops the oldest strings while the summed token count is above
    [token_limit].

    The embedding is shallow: Python values become Rocq values, the mutable
    object becomes the state of a small state-and-exception monad, and the
    [while] loop carries fuel. *)

From Stdlib Require Import String Ascii List ZArith QArith Lia Bool.
From ExtLib Require Import Structures.Monad.
Import ListNotations.
Import MonadNotation.

Close Scope Q_scope.
Local Open Scope list_scope.
Local Open Scope string_scope.
Local Open Scope monad_scope.

Set Implicit Arguments.

(** ** Python runtime pieces the notebook relies on *)

(** The line feed, written ["\n"] in the notebook. *)
Definition nl : string := String (ascii_of_nat 10) EmptyString.

(** [sep.join(items)]. *)
Fixpoint join (sep : string) (items : list string) : string :=
  match items with
  | [] => ""
  | [x] => x
  | x :: rest => x ++ sep ++ join sep rest
  end.

(** Truth value of a string in an [if]: the empty string is falsy. *)
Definition str_truthy (s : string) : bool :=
  match s with
  | EmptyString => false
  | String _ _ => true
  end.

(** Truth value of a dict (or list) in an [if]: empty is falsy. *)
Definition truthy {A : Type} (d : list A) : bool :=
  match d with
  | [] => false
  | _ :: _ => true
  end.

(** The values stored in [additional_kwargs] are arbitrary Python objects
    ([Dict[str, Any]]).  The notebook only ever formats them, through the
    built-in [repr] that an f-string applies to a dict's keys and values.
    Both are kept abstract. *)
Class Python : Type := {
  Value : Type;
  repr : Value -> string;
  repr_str : string -> string
}.

(** A dict with string keys, in insertion order (which Python preserves and
    [repr] shows). *)
Definition Dict `{Python} : Type := list (string * Value).

(** A Python dict holds each key once. *)
Definition wf_dict `{Python} (d : Dict) : Prop := NoDup (map fst d).

(** [repr(k) + ": " + repr(v)], one item of a dict's display. *)
Definition repr_item `{Python} (kv : string * Value) : string :=
  repr_str (fst kv) ++ ": " ++ repr (snd kv).

(** [str(d)] for a dict, as the f-string [f"{kwargs}"] produces it. *)
Definition repr_dict `{Python} (d : Dict) : string :=
  "{" ++ join ", " (map repr_item d) ++ "}".

(** ** Messages *)

(** Modelled from the spec: the enumeration [MessageRole] is declared in the
    framework, not in the notebook; the data model lists the roles user,
    assistant, tool and system. *)
Inductive MessageRole : Type := USER | ASSISTANT | TOOL | SYSTEM.

(** How an f-string formats a role, as the notebook's recorded output shows
    it ([<message role=MessageRole.USER>]). *)
Definition format_role (r : MessageRole) : string :=
  match r with
  | USER => "MessageRole.USER"
  | ASSISTANT => "MessageRole.ASSISTANT"
  | TOOL => "MessageRole.TOOL"
  | SYSTEM => "MessageRole.SYSTEM"
  end.

(** The content blocks of a message.  The notebook tests only
    [isinstance(block, TextBlock)]; the other constructors stand for the
    block classes that fail the test. *)
Inductive ContentBlock : Type :=
| TextBlock (text : string)
| ImageBlock (url : string)
| AudioBlock (audio : string).

Definition is_TextBlock (block : ContentBlock) : bool :=
  match block with
  | TextBlock _ => true
  | _ => false
  end.

Record ChatMessage `{Python} : Type := mkChatMessage {
  role : MessageRole;
  blocks : list ContentBlock;
  additional_kwargs : Dict
}.

(** [block.text for block in message.blocks if isinstance(block, TextBlock)] *)
Fixpoint text_blocks (bs : list ContentBlock) : list string :=
  match bs with
  | [] => []
  | TextBlock t :: rest => t :: text_blocks rest
  | _ :: rest => text_blocks rest
  end.

(** [{key: val for key, val in d.items() if key != "session_id"}] *)
Definition without_session_id `{Python} (d : Dict) : Dict :=
  filter (fun kv => negb (String.eqb (fst kv) "session_id")) d.

(** The body of the [for] loop of [_aput] up to the [append]: the string
    built in [memory_str], one assignment after the other. *)
Definition memory_str `{Python} (message : ChatMessage) : string :=
  let text_contents := join nl (text_blocks (blocks message)) in
  let memory_str := "<message role=" ++ format_role (role message) ++ ">" in
  let memory_str :=
    if str_truthy text_contents
    then memory_str ++ (nl ++ text_contents)
    else memory_str in
  let kwargs := without_session_id (additional_kwargs message) in
  let memory_str :=
    if truthy kwargs
    then memory_str ++ (nl ++ "(" ++ repr_dict kwargs ++ ")")
    else memory_str in
  memory_str ++ (nl ++ "</message>").

(** ** The block and its heap *)

(** [tokenizer.encode] returns the token ids of a text, or raises; [None]
    stands for the raise. *)
Definition Encoding : Type := string -> option (list nat).

Record CondensedMemoryBlock : Type := mkBlock {
  name : string;
  current_memory : list string;
  token_limit : Z;
  tokenizer : Encoding
}.

Definition set_current_memory (b : CondensedMemoryBlock) (m : list string)
  : CondensedMemoryBlock :=
  mkBlock (name b) m (token_limit b) (tokenizer b).

(** The object [self], together with a history variable: [evicted] lists
    the strings the slice assignment [current_memory[1:]] has dropped, in
    the order they were dropped.  The program never reads it. *)
Record Heap : Type := mkHeap {
  self : CondensedMemoryBlock;
  evicted : list string
}.

Inductive Exception : Type :=
| TokenizationError (text : string).

(** How a call ends: it returns, it raises, or the model ran out of fuel
    before the loop ended. *)
Inductive Outcome (A : Type) : Type :=
| Returned (a : A)
| Raised (e : Exception)
| OutOfFuel.

Arguments Raised {A} e.
Arguments OutOfFuel {A}.

(** Computations over the heap.  The heap is returned in every case: what
    a raising call leaves behind matters. *)
Definition Py (A : Type) : Type := Heap -> Outcome A * Heap.

#[global] Instance Monad_Py : Monad Py := {
  ret := fun A (a : A) (h : Heap) => (Returned a, h);
  bind := fun A B (c : Py A) (k : A -> Py B) (h : Heap) =>
    match c h with
    | (Returned a, h') => k a h'
    | (Raised e, h') => (Raised e, h')
    | (OutOfFuel, h') => (OutOfFuel, h')
    end
}.

Definition raise {A : Type} (e : Exception) : Py A :=
  fun h => (Raised e, h).

(** [for x in items: body(x)] *)
Fixpoint for_each {A : Type} (items : list A) (body : A -> Py unit) : Py unit :=
  match items with
  | [] => ret tt
  | x :: rest => body x ;; for_each rest body
  end.

(** [self.current_memory.append(s)] *)
Definition append_memory (s : string) : Py unit :=
  fun h =>
    (Returned tt,
     mkHeap (set_current_memory (self h) (current_memory (self h) ++ [s])%list)
            (evicted h)).

(** [self.current_memory = self.current_memory[1:]]; the slice of an empty
    list is the empty list. *)
Definition drop_oldest : Py unit :=
  fun h =>
    match current_memory (self h) with
    | [] => (Returned tt, h)
    | oldest :: rest =>
        (Returned tt,
         mkHeap (set_current_memory (self h) rest) (evicted h ++ [oldest])%list)
    end.

(** [sum(len(tokenizer.encode(m)) for m in items)], started from [acc]: the
    generator encodes the items in order and the first failing [encode]
    raises. *)
Fixpoint sum_from (enc : Encoding) (acc : Z) (items : list string)
  : Exception + Z :=
  match items with
  | [] => inr acc
  | m :: rest =>
      match enc m with
      | None => inl (TokenizationError m)
      | Some tokens => sum_from enc (acc + Z.of_nat (length tokens)) rest
      end
  end.

Definition token_sum (enc : Encoding) (items : list string) : Exception + Z :=
  sum_from enc 0%Z items.

(** The [sum(...)] over [self.current_memory], as a computation. *)
Definition measure : Py Z :=
  fun h =>
    let result : Py Z :=
      match token_sum (tokenizer (self h)) (current_memory (self h)) with
      | inr n => ret n
      | inl e => raise e
      end in
    result h.

(** [while message_length > self.token_limit: ...] *)
Fixpoint while_too_large (fuel : nat) (message_length : Z) : Py unit :=
  fun h =>
    if (message_length >? token_limit (self h))%Z
    then
      match fuel with
      | O => (OutOfFuel, h)
      | S fuel' =>
          (drop_oldest ;;
           message_length' <- measure ;;
           while_too_large fuel' message_length') h
      end
    else (Returned tt, h).

(** The second half of [_aput]: measure, then trim. *)
Definition trim (fuel : nat) : Py unit :=
  message_length <- measure ;;
  while_too_large fuel message_length.

(** [CondensedMemoryBlock._aget]; both arguments are ignored. *)
Definition _aget `{Python} (messages : option (list ChatMessage)) : Py string :=
  fun h => (Returned (join nl (current_memory (self h))), h).

(** [CondensedMemoryBlock._aput] *)
Definition _aput `{Python} (fuel : nat) (messages : list ChatMessage) : Py unit :=
  for_each messages (fun message => append_memory (memory_str message)) ;;
  trim fuel.

(** ** Vocabulary for the statements *)

(** The strings the block holds. *)
Definition memory (h : Heap) : list string := current_memory (self h).

(** The heap after the [for] loop of [_aput]: one string per message,
    appended in order; nothing else changes. *)
Definition appended `{Python} (h : Heap) (messages : list ChatMessage) : Heap :=
  mkHeap (set_current_memory (self h)
            (memory h ++ map memory_str messages)%list)
         (evicted h).

(** The fields [_aput] never assigns. *)
Definition same_object (h h' : Heap) : Prop :=
  name (self h') = name (self h)
  /\ token_limit (self h') = token_limit (self h)
  /\ tokenizer (self h') = tokenizer (self h).

(** The stored strings cost at most [token_limit] tokens in all. *)
Definition within_limit (h : Heap) : Prop :=
  exists n, token_sum (tokenizer (self h)) (memory h) = inr n
            /\ (n <= token_limit (self h))%Z.

(** A run of [_aput] calls on the same object, one after the other. *)
Fixpoint aput_calls `{Python} (fuel : nat) (calls : list (list ChatMessage))
  : Py unit :=
  match calls with
  | [] => ret tt
  | messages :: rest => _aput fuel messages ;; aput_calls fuel rest
  end.

(** The total token cost of a list of stored strings is [n]. *)
Definition costs (enc : Encoding) (items : list string) (n : Z) : Prop :=
  token_sum enc items = inr n.

(** A tokenizer that never raises. *)
Definition total_tokenizer (enc : Encoding) : Prop :=
  forall text, enc text <> None.

(** ** The canonical form of a flushed turn, in the words of the specification

    A role tag, then the text segments joined by line feeds when that text
    is not empty, then the auxiliary data without the key [session_id] when
    any key remains, then the closing tag.  This definition follows the
    prose; [memory_str] above follows the code. *)

Definition role_tag (r : MessageRole) : string :=
  "<message role=" ++ format_role r ++ ">".

Definition text_segments `{Python} (m : ChatMessage) : list string :=
  map (fun b => match b with TextBlock t => t | _ => "" end)
      (filter is_TextBlock (blocks m)).

Definition text_part `{Python} (m : ChatMessage) : string :=
  let text := String.concat nl (text_segments m) in
  if String.eqb text "" then "" else nl ++ text.

Definition remaining_kwargs `{Python} (m : ChatMessage) : Dict :=
  filter (fun kv => if string_dec (fst kv) "session_id" then false else true)
         (additional_kwargs m).

Definition aux_part `{Python} (m : ChatMessage) : string :=
  match remaining_kwargs m with
  | [] => ""
  | kwargs => nl ++ "(" ++ repr_dict kwargs ++ ")"
  end.

Definition closing_tag : string := nl ++ "</message>".

Definition canonical_form `{Python} (m : ChatMessage) : string :=
  role_tag (role m) ++ text_part m ++ aux_part m ++ closing_tag.

(** [needle] occurs in [text]. *)
Definition occurs_in (needle text : string) : Prop :=
  exists before after, text = before ++ needle ++ after.

(** ** Bounded session memory *)

Module Session.

(** How the condensed text is attached to the outgoing messages. *)
Inductive InsertMethod : Type := insert_user | insert_system.

(** Modelled from the spec: the session object of the framework's [Memory]
    class, which the notebook only configures and calls.  A session owns one
    live window of turns and one condensation block; its configuration is
    the block's [token_limit], the [chat_history_token_ratio] and the
    [insert_method]. *)
Record Session `{Python} : Type := mkSession {
  session_id : string;
  live_window : list ChatMessage;
  condensation : Heap;
  chat_history_token_ratio : Q;
  insert_method : InsertMethod
}.

Inductive BudgetState : Type := UNDER_BUDGET | OVER_BUDGET.

Section Operations.
Context `{Python}.

(** Modelled from the spec: the token cost of a turn is the token cost of
    its rendered string form; the cost of a window is the sum over its
    turns, measured with the block's tokenizer. *)
Definition window_cost (h : Heap) (live : list ChatMessage) : Exception + Z :=
  token_sum (tokenizer (self h)) (map memory_str live).

(** Modelled from the spec: the live window is within budget when its token
    sum is at most [chat_history_token_ratio * token_limit]. *)
Definition within_threshold (ratio : Q) (h : Heap) (cost : Z) : bool :=
  Qle_bool (inject_Z cost) (ratio * inject_Z (token_limit (self h))).

(** Modelled from the spec: the loop of [flush].  Turns move one at a time,
    oldest first, until the threshold holds or the live window is empty;
    each moved turn is rendered and appended to the condensation block by
    the block's own [_aput], which then trims the block. *)
Fixpoint flush_window (fuel : nat) (ratio : Q) (live : list ChatMessage)
  : Py (list ChatMessage) :=
  match live with
  | [] => ret []
  | oldest :: rest =>
      fun h =>
        match window_cost h live with
        | inl e => (Raised e, h)
        | inr cost =>
            if within_threshold ratio h cost
            then (Returned live, h)
            else (_aput fuel [oldest] ;; flush_window fuel ratio rest) h
        end
  end.

Definition set_window (s : Session) (live : list ChatMessage) (h : Heap)
  : Session :=
  mkSession (session_id s) live h (chat_history_token_ratio s)
            (insert_method s).

(** Modelled from the spec: [flush].  A tokenizer failure aborts the
    operation and leaves the session as it was. *)
Definition flush (fuel : nat) (s : Session) : Outcome unit * Session :=
  match flush_window fuel (chat_history_token_ratio s) (live_window s)
                     (condensation s) with
  | (Returned live, h) => (Returned tt, set_window s live h)
  | (Raised e, _) => (Raised e, s)
  | (OutOfFuel, _) => (OutOfFuel, s)
  end.

(** Modelled from the spec: [append].  The turns join the live window in
    order; the operation may trigger a flush, which [auto_flush] decides. *)
Definition append (fuel : nat) (auto_flush : bool) (s : Session)
  (turns : list ChatMessage) : Outcome unit * Session :=
  let s' := set_window s (live_window s ++ turns)%list (condensation s) in
  if auto_flush then
    match flush fuel s' with
    | (Returned tt, s'') => (Returned tt, s'')
    | (Raised e, _) => (Raised e, s)
    | (OutOfFuel, _) => (OutOfFuel, s)
    end
  else (Returned tt, s').

(** A run of [append] calls. *)
Fixpoint appends (fuel : nat) (s : Session)
  (calls : list (bool * list ChatMessage)) : Outcome unit * Session :=
  match calls with
  | [] => (Returned tt, s)
  | (auto_flush, turns) :: rest =>
      match append fuel auto_flush s turns with
      | (Returned tt, s') => appends fuel s' rest
      | failure => failure
      end
  end.

Definition synthetic_role (m : InsertMethod) : MessageRole :=
  match m with
  | insert_user => USER
  | insert_system => SYSTEM
  end.

(** The turn that carries the condensed text. *)
Definition synthetic_turn (m : InsertMethod) (text : string) : ChatMessage :=
  mkChatMessage (synthetic_role m) [TextBlock text] [].

(** Modelled from the spec: [render].  The block's text, when it is not
    empty, as one synthetic turn, followed by the live window. *)
Definition render (s : Session) : list ChatMessage :=
  match fst (_aget None (condensation s)) with
  | Returned text =>
      if str_truthy text
      then synthetic_turn (insert_method s) text :: live_window s
      else live_window s
  | _ => live_window s
  end.

(** Modelled from the spec: the two logical states of a session. *)
Definition budget_state (s : Session) : Exception + BudgetState :=
  match window_cost (condensation s) (live_window s) with
  | inl e => inl e
  | inr cost =>
      if within_threshold (chat_history_token_ratio s) (condensation s) cost
      then inr UNDER_BUDGET
      else inr OVER_BUDGET
  end.

End Operations.

End Session.

(** ** Concrete runtimes for the examples *)

(** Auxiliary values that are plain strings, displayed between single
    quotes as [repr] does for a string without quotes or backslashes. *)
Definition quoted (s : string) : string := "'" ++ s ++ "'".

#[global] Instance plain_python : Python := {
  Value := string;
  repr := quoted;
  repr_str := quoted
}.

(** One token per character. *)
Definition char_tokenizer : Encoding :=
  fun text => Some (map nat_of_ascii (list_ascii_of_string text)).

Fixpoint mentions (c : ascii) (text : string) : bool :=
  match text with
  | EmptyString => false
  | String c' rest => if Ascii.eqb c c' then true else mentions c rest
  end.

(** A tokenizer that refuses a text holding a vertical bar, as a tokenizer
    refuses the text of a reserved token; otherwise one token per
    character. *)
Definition strict_tokenizer : Encoding :=
  fun text => if mentions "|"%char text then None else char_tokenizer text.

Definition user_says (text : string) : ChatMessage :=
  mkChatMessage USER [TextBlock text] [].

Definition assistant_says (text : string) : ChatMessage :=
  mkChatMessage ASSISTANT [TextBlock text] [].

(** The four messages of the notebook. *)
Definition initial_messages : list ChatMessage :=
  [ user_says "Hello! My name is Logan";
    assistant_says "Hello! How can I help you?";
    user_says "What is the capital of France?";
    assistant_says "The capital of France is Paris" ].

(** The follow-up message of the notebook. *)
Definition follow_up : ChatMessage := user_says "What was my name again?".

(** A turn whose rendered form has 50 characters. *)
Definition oversized_turn : ChatMessage := user_says "Hello!!".

(** A turn whose text is a reserved token. *)
Definition reserved_turn : ChatMessage := user_says "<|endoftext|>".

(** A tool result in the shape of the notebook's agent run, with the
    session identifier the framework injects and an image block. *)
Definition tool_result : ChatMessage :=
  mkChatMessage TOOL
    [TextBlock "1607.0"; ImageBlock "chart.png"]
    [("session_id", "test-mem-01"); ("tool_call_id", "call_3eFX")].

(** The text the notebook's recorded output shows between the
    [condensed_memory] tags after the four messages were put. *)
Definition condensed_text : string :=
"<message role=MessageRole.USER>
Hello! My name is Logan
</message>
<message role=MessageRole.ASSISTANT>
Hello! How can I help you?
</message>
<message role=MessageRole.USER>
What is the capital of France?
</message>
<message role=MessageRole.ASSISTANT>
The capital of France is Paris
</message>".

Definition new_block (limit : Z) (enc : Encoding) : Heap :=
  mkHeap (mkBlock "condensed_memory" [] limit enc) [].

Definition new_session (limit : Z) (enc : Encoding) (ratio : Q)
  : Session.Session :=
  Session.mkSession "test-mem-01" [] (new_block limit enc) ratio
                    Session.insert_user.

(** The session after the four messages were appended without a flush. *)
Definition with_initial_messages (s : Session.Session) : Session.Session :=
  snd (Session.appends 10 s [(false, initial_messages)]).

(** ** Vocabulary for the further properties of the block *)

(** [s] is what is left of [l] after some front part is cut off. *)
Definition suffix_of (s l : list string) : Prop :=
  exists front, l = (front ++ s)%list.

(** The strings [items] can all be tokenized and cost at most [limit]. *)
Definition fits (enc : Encoding) (limit : Z) (items : list string) : Prop :=
  exists n, token_sum enc items = inr n /\ (n <= limit)%Z.

(** The same message without its content blocks. *)
Definition without_blocks `{Python} (m : ChatMessage) : ChatMessage :=
  mkChatMessage (role m) [] (additional_kwargs m).

(** ** The Self-Discover workflow *)

Module SelfDiscover.

(** A prompt template: a text with [{name}] fields. *)
Record PromptTemplate : Type := mkPromptTemplate { template : string }.

(** The list literal of the notebook.  The last six string literals have no
    comma between them, so Python joins them into one element. *)
Definition _REASONING_MODULES_items : list string :=
  [
    "1. How could I devise an experiment to help solve that problem?";
    "2. Make a list of ideas for solving this problem, and apply them one by one to the problem to see if any progress can be made.";
    "3. How could I measure progress on this problem?";
    "4. How can I simplify the problem so that it is easier to solve?";
    "5. What are the key assumptions underlying this problem?";
    "6. What are the potential risks and drawbacks of each solution?";
    "7. What are the alternative perspectives or viewpoints on this problem?";
    "8. What are the long-term implications of this problem and its solutions?";
    "9. How can I break down this problem into smaller, more manageable parts?";
    "10. Critical Thinking: This style involves analyzing the problem from different perspectives, questioning assumptions, and evaluating the evidence or information available. It focuses on logical reasoning, evidence-based decision-making, and identifying potential biases or flaws in thinking.";
    "11. Try creative thinking, generate innovative and out-of-the-box ideas to solve the problem. Explore unconventional solutions, thinking beyond traditional boundaries, and encouraging imagination and originality.";
    "12. Seek input and collaboration from others to solve the problem. Emphasize teamwork, open communication, and leveraging the diverse perspectives and expertise of a group to come up with effective solutions.";
    "13. Use systems thinking: Consider the problem as part of a larger system and understanding the interconnectedness of various elements. Focuses on identifying the underlying causes, feedback loops, and interdependencies that influence the problem, and developing holistic solutions that address the system as a whole.";
    "14. Use Risk Analysis: Evaluate potential risks, uncertainties, and tradeoffs associated with different solutions or approaches to a problem. Emphasize assessing the potential consequences and likelihood of success or failure, and making informed decisions based on a balanced analysis of risks and benefits.";
    "15. Use Reflective Thinking: Step back from the problem, take the time for introspection and self-reflection. Examine personal biases, assumptions, and mental models that may influence problem-solving, and being open to learning from past experiences to improve future approaches.";
    "16. What is the core issue or problem that needs to be addressed?";
    "17. What are the underlying causes or factors contributing to the problem?";
    "18. Are there any potential solutions or strategies that have been tried before? If yes, what were the outcomes and lessons learned?";
    "19. What are the potential obstacles or challenges that might arise in solving this problem?";
    "20. Are there any relevant data or information that can provide insights into the problem? If yes, what data sources are available, and how can they be analyzed?";
    "21. Are there any stakeholders or individuals who are directly affected by the problem? What are their perspectives and needs?";
    "22. What resources (financial, human, technological, etc.) are needed to tackle the problem effectively?";
    "23. How can progress or success in solving the problem be measured or evaluated?";
    "24. What indicators or metrics can be used?";
    "25. Is the problem a technical or practical one that requires a specific expertise or skill set? Or is it more of a conceptual or theoretical problem?";
    "26. Does the problem involve a physical constraint, such as limited resources, infrastructure, or space?";
    "27. Is the problem related to human behavior, such as a social, cultural, or psychological issue?";
    "28. Does the problem involve decision-making or planning, where choices need to be made under uncertainty or with competing objectives?";
    "29. Is the problem an analytical one that requires data analysis, modeling, or optimization techniques?";
    "30. Is the problem a design challenge that requires creative solutions and innovation?";
    "31. Does the problem require addressing systemic or structural issues rather than just individual instances?";
    "32. Is the problem time-sensitive or urgent, requiring immediate attention and action?";
    "33. What kinds of solution typically are produced for this kind of problem specification?";
    ("34. Given the problem specification and the current best solution, have a guess about other possible solutions."
     ++ "35. Let’s imagine the current best solution is totally wrong, what other ways are there to think about the problem specification?"
     ++ "36. What is the best way to modify this current best solution, given what you know about these kinds of problem specification?"
     ++ "37. Ignoring the current best solution, create an entirely new solution to the problem."
     ++ "38. Let’s think step by step ."
     ++ "39. Let’s make a step by step plan and implement it with good notation and explanation.")
  ].

(** [_REASONING_MODULES = "\n".join(_REASONING_MODULES)] *)
Definition _REASONING_MODULES : string := join nl _REASONING_MODULES_items.

Definition SELECT_PRMOPT_TEMPLATE : PromptTemplate :=
  mkPromptTemplate
    ("Given the task: {task}, which of the following reasoning modules are relevant? Do not elaborate on why."
     ++ nl ++ nl ++ " {reasoning_modules}").

Definition ADAPT_PROMPT_TEMPLATE : PromptTemplate :=
  mkPromptTemplate
    ("Without working out the full solution, adapt the following reasoning modules to be specific to our task:"
     ++ nl ++ "{selected_modules}" ++ nl ++ nl ++ "Our task:" ++ nl ++ "{task}").

Definition IMPLEMENT_PROMPT_TEMPLATE : PromptTemplate :=
  mkPromptTemplate
    ("Without working out the full solution, create an actionable reasoning structure for the task using these adapted reasoning modules:"
     ++ nl ++ "{adapted_modules}" ++ nl ++ nl ++ "Task Description:" ++ nl
     ++ "{task}").

Definition REASONING_PROMPT_TEMPLATE : PromptTemplate :=
  mkPromptTemplate
    ("Using the following reasoning structure: {reasoning_structure}"
     ++ nl ++ nl ++ "Solve this task, providing your final answer: {task}").

(** What a step can raise: the [ValueError] of [get_modules], and the
    failure of a store lookup for a key that was never set. *)
Inductive Error : Type :=
| ValueError (message : string)
| StoreError (key : string).

Inductive Result (A : Type) : Type :=
| Ok (a : A)
| Fail (e : Error).

Arguments Fail {A} e.

Section Workflow.

(** The pieces of the framework the steps call, kept abstract: the language
    model with its [complete] method, the [str] of a completion, and the
    [format] method of a prompt template with its keyword arguments. *)
Variable LLM : Type.
Variable CompletionResponse : Type.
Variable complete : LLM -> string -> CompletionResponse.
Variable str : CompletionResponse -> string.
Variable format : PromptTemplate -> list (string * string) -> string.

(** The arguments of [workflow.run], as [ev.get] sees them: [None] for an
    argument that was not given or was given as [None]. *)
Record StartEvent : Type := mkStartEvent {
  task : option string;
  llm : option LLM
}.

Inductive GetModulesEvent : Type :=
| mkGetModulesEvent (task modules : string).

Inductive RefineModulesEvent : Type :=
| mkRefineModulesEvent (task refined_modules : string).

Inductive ReasoningStructureEvent : Type :=
| mkReasoningStructureEvent (task reasoning_structure : string).

Inductive StopEvent : Type :=
| mkStopEvent (result : CompletionResponse).

(** The workflow context: its store, and a history variable that lists the
    calls of [complete] made so far, each with its model and prompt.  The
    steps never read the history. *)
Record Context : Type := mkContext {
  store : string -> option LLM;
  completions : list (LLM * string)
}.

Definition Wf (A : Type) : Type := Context -> Result A * Context.

#[local] Instance Monad_Wf : Monad Wf := {
  ret := fun A (a : A) (ctx : Context) => (Ok a, ctx);
  bind := fun A B (c : Wf A) (k : A -> Wf B) (ctx : Context) =>
    match c ctx with
    | (Ok a, ctx') => k a ctx'
    | (Fail e, ctx') => (Fail e, ctx')
    end
}.

Definition throw {A : Type} (e : Error) : Wf A :=
  fun ctx => (Fail e, ctx).

(** [await ctx.store.set(key, value)] *)
Definition store_set (key : string) (value : LLM) : Wf unit :=
  fun ctx =>
    (Ok tt,
     mkContext (fun k => if String.eqb k key then Some value else store ctx k)
               (completions ctx)).

(** [await ctx.store.get(key)] *)
Definition store_get (key : string) : Wf LLM :=
  fun ctx =>
    match store ctx key with
    | Some value => (Ok value, ctx)
    | None => (Fail (StoreError key), ctx)
    end.

(** [llm.complete(prompt)] *)
Definition llm_complete (model : LLM) (prompt : string)
  : Wf CompletionResponse :=
  fun ctx =>
    (Ok (complete model prompt),
     mkContext (store ctx) (completions ctx ++ [(model, prompt)])%list).

(** [SelfDiscoverWorkflow.get_modules] *)
Definition get_modules (ev : StartEvent) : Wf GetModulesEvent :=
  match task ev, llm ev with
  | Some task, Some llm =>
      store_set "llm" llm ;;
      let prompt :=
        format SELECT_PRMOPT_TEMPLATE
               [("task", task); ("reasoning_modules", _REASONING_MODULES)] in
      result <- llm_complete llm prompt ;;
      ret (mkGetModulesEvent task (str result))
  | _, _ => throw (ValueError "'task' and 'llm' arguments are required.")
  end.

(** [SelfDiscoverWorkflow.refine_modules] *)
Definition refine_modules (ev : GetModulesEvent) : Wf RefineModulesEvent :=
  match ev with
  | mkGetModulesEvent task modules =>
      llm <- store_get "llm" ;;
      let prompt :=
        format ADAPT_PROMPT_TEMPLATE
               [("task", task); ("selected_modules", modules)] in
      result <- llm_complete llm prompt ;;
      ret (mkRefineModulesEvent task (str result))
  end.

(** [SelfDiscoverWorkflow.create_reasoning_structure] *)
Definition create_reasoning_structure (ev : RefineModulesEvent)
  : Wf ReasoningStructureEvent :=
  match ev with
  | mkRefineModulesEvent task refined_modules =>
      llm <- store_get "llm" ;;
      let prompt :=
        format IMPLEMENT_PROMPT_TEMPLATE
               [("task", task); ("adapted_modules", refined_modules)] in
      result <- llm_complete llm prompt ;;
      ret (mkReasoningStructureEvent task (str result))
  end.

(** [SelfDiscoverWorkflow.get_final_result] *)
Definition get_final_result (ev : ReasoningStructureEvent) : Wf StopEvent :=
  match ev with
  | mkReasoningStructureEvent task reasoning_structure =>
      llm <- store_get "llm" ;;
      let prompt :=
        format REASONING_PROMPT_TEMPLATE
               [("task", task); ("reasoning_structure", reasoning_structure)] in
      result <- llm_complete llm prompt ;;
      ret (mkStopEvent result)
  end.

(** [workflow.run(task=..., llm=...)]: each event goes to the step whose
    parameter is annotated with its class, so the four steps run in this
    order, and the run returns the result of the stop event. *)
Definition run (ev : StartEvent) : Wf CompletionResponse :=
  modules <- get_modules ev ;;
  refined <- refine_modules modules ;;
  structure <- create_reasoning_structure refined ;;
  stop <- get_final_result structure ;;
  match stop with
  | mkStopEvent result => ret result
  end.

(** The prompts of a run for a task, given the answers so far. *)
Definition select_prompt (task : string) : string :=
  format SELECT_PRMOPT_TEMPLATE
         [("task", task); ("reasoning_modules", _REASONING_MODULES)].

Definition adapt_prompt (task : string) (selected : CompletionResponse)
  : string :=
  format ADAPT_PROMPT_TEMPLATE
         [("task", task); ("selected_modules", str selected)].

Definition implement_prompt (task : string) (adapted : CompletionResponse)
  : string :=
  format IMPLEMENT_PROMPT_TEMPLATE
         [("task", task); ("adapted_modules", str adapted)].

Definition reasoning_prompt (task : string) (structure : CompletionResponse)
  : string :=
  format REASONING_PROMPT_TEMPLATE
         [("task", task); ("reasoning_structure", str structure)].

End Workflow.

(** *** A concrete runtime for the examples *)

Fixpoint lookup_field (name : string) (kwargs : list (string * string))
  : option string :=
  match kwargs with
  | [] => None
  | (key, value) :: rest =>
      if String.eqb key name then Some value else lookup_field name rest
  end.

(** Fills the [{name}] fields of a text from the keyword arguments, in one
    pass; a field without argument is left as it is.  [field] holds the
    name being read, if any. *)
Fixpoint fill (kwargs : list (string * string)) (field : option string)
  (text : string) : string :=
  match text with
  | EmptyString =>
      match field with
      | None => ""
      | Some name => "{" ++ name
      end
  | String c rest =>
      match field with
      | None =>
          if Ascii.eqb c "{"%char then fill kwargs (Some "") rest
          else String c (fill kwargs None rest)
      | Some name =>
          if Ascii.eqb c "}"%char then
            match lookup_field name kwargs with
            | Some value => value ++ fill kwargs None rest
            | None => "{" ++ name ++ "}" ++ fill kwargs None rest
            end
          else fill kwargs (Some (name ++ String c "")) rest
      end
  end.

Definition brace_format (t : PromptTemplate) (kwargs : list (string * string))
  : string :=
  fill kwargs None (template t).

(** A model that answers with the length of the prompt. *)
Definition counting_model (model prompt : string) : string :=
  model ++ ":" ++ String (ascii_of_nat (48 + String.length prompt mod 10)) "".

Definition empty_context : Context string :=
  mkContext (fun _ => None) [].

(** A start event with a task and a model, and one without model. *)
Definition start_with_model : StartEvent string :=
  mkStartEvent (Some "How many oranges?") (Some "gpt-4o").

Definition start_without_model : StartEvent string :=
  mkStartEvent (Some "How many oranges?") None.

End SelfDiscover.

(** * Properties *)

Arguments token_sum : simpl never.
Arguments _aput : simpl never.

(** ** Strings and joins *)

Lemma append_assoc (a b c : string) : (a ++ b) ++ c = a ++ (b ++ c).
Proof.
  induction a as [|ch a IH]; simpl; [reflexivity | now rewrite IH].
Qed.

Lemma append_empty_r (a : string) : a ++ "" = a.
Proof.
  induction a as [|ch a IH]; simpl; [reflexivity | now rewrite IH].
Qed.

Lemma join_concat (sep : string) (items : list string) :
  join sep items = String.concat sep items.
Proof.
  induction items as [|x rest IH]; [reflexivity|].
  destruct rest as [|y rest]; [reflexivity|].
  change (x ++ sep ++ join sep (y :: rest)
          = x ++ sep ++ String.concat sep (y :: rest)).
  now rewrite IH.
Qed.

Lemma str_truthy_eqb (s : string) : str_truthy s = negb (String.eqb s "").
Proof. destruct s; reflexivity. Qed.

Lemma text_blocks_filter (bs : list ContentBlock) :
  text_blocks bs
  = map (fun b => match b with TextBlock t => t | _ => "" end)
        (filter is_TextBlock bs).
Proof.
  induction bs as [|[t|u|a] bs IH]; simpl; try assumption.
  - reflexivity.
  - now rewrite IH.
Qed.


Lemma occurs_in_refl (s : string) : occurs_in s s.
Proof. exists "", "". simpl. now rewrite append_empty_r. Qed.

Lemma occurs_in_append_l (needle a b : string) :
  occurs_in needle b -> occurs_in needle (a ++ b).
Proof.
  intros (pre & post & ->). exists (a ++ pre), post.
  now rewrite append_assoc.
Qed.

Lemma occurs_in_append_r (needle a b : string) :
  occurs_in needle a -> occurs_in needle (a ++ b).
Proof.
  intros (pre & post & ->). exists pre, (post ++ b).
  now rewrite !append_assoc.
Qed.

Lemma occurs_in_join (sep x : string) (items : list string) :
  In x items -> occurs_in x (join sep items).
Proof.
  induction items as [|y [|z rest] IH]; intros Hin.
  - destruct Hin.
  - destruct Hin as [->|[]]. apply occurs_in_refl.
  - destruct Hin as [->|Hin].
    + change (occurs_in x (x ++ sep ++ join sep (z :: rest))).
      apply occurs_in_append_r, occurs_in_refl.
    + change (occurs_in x (y ++ sep ++ join sep (z :: rest))).
      now apply occurs_in_append_l, occurs_in_append_l, IH.
Qed.

(** ** Token sums *)

Lemma sum_from_shift (enc : Encoding) (items : list string) (acc : Z) :
  sum_from enc acc items
  = match sum_from enc 0%Z items with
    | inl e => inl e
    | inr n => inr (acc + n)%Z
    end.
Proof.
  revert acc. induction items as [|m rest IH]; intros acc; simpl.
  - f_equal. lia.
  - destruct (enc m) as [tokens|]; [|reflexivity].
    rewrite (IH (acc + _)%Z), (IH (Z.of_nat _)).
    destruct (sum_from enc 0%Z rest); [reflexivity|]. f_equal. lia.
Qed.

Lemma token_sum_nil (enc : Encoding) : token_sum enc [] = inr 0%Z.
Proof. reflexivity. Qed.

Lemma token_sum_cons (enc : Encoding) (m : string) (rest : list string) :
  token_sum enc (m :: rest)
  = match enc m with
    | None => inl (TokenizationError m)
    | Some tokens =>
        match token_sum enc rest with
        | inl e => inl e
        | inr n => inr (Z.of_nat (length tokens) + n)%Z
        end
    end.
Proof.
  unfold token_sum. simpl. destruct (enc m) as [tokens|]; [|reflexivity].
  now rewrite sum_from_shift.
Qed.

Lemma costs_nonneg (enc : Encoding) (items : list string) (n : Z) :
  costs enc items n -> (0 <= n)%Z.
Proof.
  unfold costs. revert n. induction items as [|m rest IH]; intros n.
  - rewrite token_sum_nil. intros [= <-]. lia.
  - rewrite token_sum_cons. destruct (enc m) as [tokens|]; [|discriminate].
    destruct (token_sum enc rest) as [e|k]; [discriminate|].
    intros [= <-]. specialize (IH k eq_refl). lia.
Qed.

Lemma costs_tail (enc : Encoding) (m : string) (rest : list string) (n : Z) :
  costs enc (m :: rest) n ->
  exists k, costs enc rest k /\ (0 <= k <= n)%Z.
Proof.
  unfold costs. rewrite token_sum_cons.
  destruct (enc m) as [tokens|]; [|discriminate].
  destruct (token_sum enc rest) as [e|k] eqn:Hrest; [discriminate|].
  intros [= <-]. exists k. split; [reflexivity|].
  pose proof (@costs_nonneg enc rest k Hrest). lia.
Qed.

Lemma costs_app (enc : Encoding) (xs ys : list string) (n : Z) :
  costs enc (xs ++ ys)%list n ->
  exists a b, costs enc xs a /\ costs enc ys b /\ n = (a + b)%Z.
Proof.
  unfold costs. revert n. induction xs as [|x xs IH]; intros n; simpl.
  - intros Hn. exists 0%Z, n. split; [reflexivity | split; [assumption | lia]].
  - rewrite !token_sum_cons. destruct (enc x) as [tokens|]; [|discriminate].
    destruct (token_sum enc (xs ++ ys)%list) as [e|k] eqn:Hk; [discriminate|].
    intros [= <-]. destruct (IH k eq_refl) as (a & b & Ha & Hb & ->).
    rewrite Ha. exists (Z.of_nat (length tokens) + a)%Z, b.
    split; [reflexivity | split; [assumption | lia]].
Qed.

Lemma costs_app_intro (enc : Encoding) (xs ys : list string) (a b : Z) :
  costs enc xs a -> costs enc ys b -> costs enc (xs ++ ys)%list (a + b)%Z.
Proof.
  unfold costs. revert a. induction xs as [|x xs IH]; intros a; simpl.
  - intros [= <-] Hb. now rewrite Hb.
  - rewrite !token_sum_cons. destruct (enc x) as [tokens|]; [|discriminate].
    destruct (token_sum enc xs) as [e|k] eqn:Hk; [discriminate|].
    intros [= <-] Hb. rewrite (IH k eq_refl Hb). f_equal. lia.
Qed.

Lemma total_tokenizer_costs (enc : Encoding) (items : list string) :
  total_tokenizer enc -> exists n, costs enc items n.
Proof.
  intros Htotal. unfold costs.
  induction items as [|m rest [k Hk]].
  - now exists 0%Z.
  - rewrite token_sum_cons, Hk. destruct (enc m) as [tokens|] eqn:Hm.
    + now eexists.
    + now apply Htotal in Hm.
Qed.

(** ** The loops of [_aput] *)

Lemma same_object_refl (h : Heap) : same_object h h.
Proof. now repeat split. Qed.

Lemma same_object_trans (h1 h2 h3 : Heap) :
  same_object h1 h2 -> same_object h2 h3 -> same_object h1 h3.
Proof.
  intros (Hn & Hl & Ht) (Hn' & Hl' & Ht'). unfold same_object.
  rewrite Hn', Hl', Ht'. now repeat split.
Qed.

Lemma same_object_appended `{Python} (h : Heap) (messages : list ChatMessage) :
  same_object h (appended h messages).
Proof. now repeat split. Qed.

Lemma for_each_append `{Python} (messages : list ChatMessage) (h : Heap) :
  for_each messages (fun message => append_memory (memory_str message)) h
  = (Returned tt, appended h messages).
Proof.
  revert h. induction messages as [|m rest IH]; intros h.
  - destruct h as [[nm mem lim tok] ev]. cbn. unfold appended, memory. cbn.
    now rewrite app_nil_r.
  - cbn. rewrite IH. destruct h as [[nm mem lim tok] ev].
    unfold appended, memory. cbn. now rewrite <- app_assoc.
Qed.

Lemma trim_eq (fuel : nat) (h : Heap) :
  trim fuel h
  = match token_sum (tokenizer (self h)) (memory h) with
    | inr n => while_too_large fuel n h
    | inl e => (Raised e, h)
    end.
Proof.
  unfold trim, measure, memory. cbn.
  now destruct (token_sum (tokenizer (self h)) (current_memory (self h))).
Qed.

Lemma aput_eq `{Python} (fuel : nat) (messages : list ChatMessage) (h : Heap) :
  _aput fuel messages h = trim fuel (appended h messages).
Proof. unfold _aput. cbn. now rewrite for_each_append. Qed.

Lemma while_too_large_eq (fuel : nat) (n : Z) (h : Heap) :
  while_too_large fuel n h
  = if (n >? token_limit (self h))%Z
    then
      match fuel with
      | O => (OutOfFuel, h)
      | S fuel' => trim fuel' (snd (drop_oldest h))
      end
    else (Returned tt, h).
Proof.
  destruct fuel as [|fuel']; cbn;
    destruct (n >? token_limit (self h))%Z; try reflexivity.
  unfold drop_oldest, trim. cbn.
  destruct (current_memory (self h)); reflexivity.
Qed.

Lemma drop_oldest_nil (h : Heap) :
  memory h = [] -> snd (drop_oldest h) = h.
Proof. unfold drop_oldest, memory. now intros ->. Qed.

Lemma drop_oldest_cons (h : Heap) (oldest : string) (rest : list string) :
  memory h = oldest :: rest ->
  snd (drop_oldest h)
  = mkHeap (set_current_memory (self h) rest) (evicted h ++ [oldest])%list.
Proof. unfold drop_oldest, memory. now intros ->. Qed.

(** What the [while] loop does, whatever the fuel: it only drops strings
    from the front, each drop happens while the block is above the limit,
    it returns within the limit, and it never raises once the first sum has
    succeeded. *)
Lemma while_too_large_spec (fuel : nat) :
  forall (n : Z) (h : Heap) (out : Outcome unit) (h' : Heap),
    token_sum (tokenizer (self h)) (memory h) = inr n ->
    while_too_large fuel n h = (out, h') ->
    same_object h h'
    /\ (exists dropped,
           evicted h' = (evicted h ++ dropped)%list
           /\ memory h = (dropped ++ memory h')%list
           /\ length dropped <= fuel
           /\ forall front d, dropped = (front ++ [d])%list ->
                exists c, token_sum (tokenizer (self h)) (d :: memory h') = inr c
                          /\ (token_limit (self h) < c)%Z)
    /\ match out with
       | Returned _ => within_limit h'
       | Raised _ => False
       | OutOfFuel =>
           (token_limit (self h) < 0)%Z \/ fuel < length (memory h)
       end.
Proof.
  induction fuel as [|fuel IH]; intros n h out h' Hn Hrun;
    rewrite while_too_large_eq in Hrun;
    destruct (n >? token_limit (self h))%Z eqn:Hcmp.
  - injection Hrun as <- <-. split; [apply same_object_refl|]. split.
    + exists []. rewrite app_nil_r. repeat split; auto.
      intros [|? ?] d; discriminate.
    + destruct (memory h) eqn:Hmem.
      * left. rewrite token_sum_nil in Hn. injection Hn as <-. lia.
      * right. simpl. lia.
  - injection Hrun as <- <-. split; [apply same_object_refl|]. split.
    + exists []. rewrite app_nil_r. repeat split; auto.
      intros [|? ?] d; discriminate.
    + exists n. split; [assumption | lia].
  - destruct (memory h) as [|oldest rest] eqn:Hmem.
    + (* nothing left to drop: the sum stays 0 *)
      rewrite (drop_oldest_nil h Hmem), trim_eq, Hmem, token_sum_nil in Hrun.
      assert (n = 0%Z) as -> by (rewrite token_sum_nil in Hn; congruence).
      destruct (IH 0%Z h out h') as (Hsame & (dropped & Hev & Hm & Hlen & Hmin) & Hout);
        [now rewrite Hmem | assumption |].
      split; [assumption|]. split.
      * rewrite Hmem in Hm. exists dropped. repeat split; auto.
      * destruct out; auto. left. lia.
    + rewrite (drop_oldest_cons h Hmem), trim_eq in Hrun.
      destruct (@costs_tail _ _ _ _ Hn) as (k & Hk & Hkn).
      unfold costs in Hk. cbn in Hrun. unfold memory in Hrun. cbn in Hrun.
      rewrite Hk in Hrun.
      set (h1 := mkHeap (set_current_memory (self h) rest)
                        (evicted h ++ [oldest])%list) in *.
      destruct (IH k h1 out h') as (Hsame & (dropped & Hev & Hm & Hlen & Hmin) & Hout);
        [exact Hk | assumption |].
      split; [exact Hsame|]. split.
      * exists (oldest :: dropped). cbn in Hev, Hm. unfold memory in Hm. cbn in Hm.
        rewrite Hev, <- app_assoc. repeat split; auto.
        -- cbn. now rewrite Hm.
        -- cbn. lia.
        -- intros front d Hfront. destruct dropped as [|d0 dropped].
           ++ destruct front as [|f [|? ?]]; try discriminate.
              injection Hfront as <-. exists n. cbn in Hm.
              unfold memory. rewrite <- Hm.
              split; [assumption | lia].
           ++ destruct front as [|f front]; [discriminate|].
              injection Hfront as <- Hfront.
              apply (Hmin front d Hfront).
      * destruct out; auto. cbn in Hout. unfold memory in Hout. cbn in Hout.
        destruct Hout as [Hneg|Hlt]; [now left | right; cbn; lia].
  - injection Hrun as <- <-. split; [apply same_object_refl|]. split.
    + exists []. rewrite app_nil_r. repeat split; auto.
      * cbn. lia.
      * intros [|? ?] d; discriminate.
    + exists n. split; [assumption | lia].
Qed.

Lemma token_sum_fails (enc : Encoding) (items : list string) (text : string) :
  In text items -> enc text = None -> exists e, token_sum enc items = inl e.
Proof.
  intros Hin Hfail. induction items as [|m rest IH]; [destruct Hin|].
  rewrite token_sum_cons. destruct Hin as [->|Hin].
  - rewrite Hfail. now eexists.
  - destruct (enc m) as [tokens|]; [|now eexists].
    destruct (IH Hin) as [e ->]. now eexists.
Qed.

Lemma token_sum_raises (enc : Encoding) (items : list string) (e : Exception) :
  token_sum enc items = inl e ->
  exists text, In text items /\ enc text = None /\ e = TokenizationError text.
Proof.
  induction items as [|m rest IH].
  - rewrite token_sum_nil. discriminate.
  - rewrite token_sum_cons. destruct (enc m) as [tokens|] eqn:Hm.
    + destruct (token_sum enc rest) as [e'|k]; [|discriminate].
      intros [= <-]. destruct (IH eq_refl) as (text & Hin & Hnone & He).
      exists text. repeat split; auto. now right.
    + intros [= <-]. exists m. repeat split; auto. now left.
Qed.

(** What one call of [_aput] does, by the way it ends. *)
Lemma aput_spec `{Python} (fuel : nat) (messages : list ChatMessage)
  (h : Heap) (out : Outcome unit) (h' : Heap) :
  _aput fuel messages h = (out, h') ->
  same_object h h'
  /\ match out with
     | Returned _ =>
         within_limit h'
         /\ exists dropped,
              evicted h' = (evicted h ++ dropped)%list
              /\ (memory h ++ map memory_str messages)%list
                 = (dropped ++ memory h')%list
              /\ length dropped <= fuel
              /\ forall front d, dropped = (front ++ [d])%list ->
                   exists c,
                     token_sum (tokenizer (self h)) (d :: memory h') = inr c
                     /\ (token_limit (self h) < c)%Z
     | Raised e =>
         h' = appended h messages
         /\ token_sum (tokenizer (self h))
                      (memory h ++ map memory_str messages)%list = inl e
     | OutOfFuel =>
         (token_limit (self h) < 0)%Z
         \/ fuel < length (memory h) + length messages
     end.
Proof.
  rewrite aput_eq, trim_eq.
  change (tokenizer (self (appended h messages))) with (tokenizer (self h)).
  change (memory (appended h messages))
    with (memory h ++ map memory_str messages)%list.
  destruct (token_sum (tokenizer (self h))
                      (memory h ++ map memory_str messages)%list)
    as [e|n] eqn:Hsum.
  - intros [= <- <-]. split; [apply same_object_appended | now split].
  - intros Hrun.
    destruct (@while_too_large_spec fuel n (appended h messages) out h')
      as (Hsame & (dropped & Hev & Hm & Hlen & Hmin) & Hout);
      [exact Hsum | exact Hrun |].
    split; [exact Hsame|]. destruct out as [[]|e|].
    + split; [exact Hout|]. exists dropped. repeat split; auto.
    + destruct Hout.
    + destruct Hout as [Hneg|Hlt]; [now left | right].
      change (memory (appended h messages))
        with (memory h ++ map memory_str messages)%list in Hlt.
      now rewrite length_app, length_map in Hlt.
Qed.

Lemma aput_fits `{Python} (fuel : nat) (messages : list ChatMessage)
  (h : Heap) (n : Z) :
  token_sum (tokenizer (self h)) (memory h ++ map memory_str messages)%list
  = inr n ->
  (n <= token_limit (self h))%Z ->
  _aput fuel messages h = (Returned tt, appended h messages).
Proof.
  intros Hsum Hle. rewrite aput_eq, trim_eq.
  change (tokenizer (self (appended h messages))) with (tokenizer (self h)).
  change (memory (appended h messages))
    with (memory h ++ map memory_str messages)%list.
  rewrite Hsum, while_too_large_eq.
  change (token_limit (self (appended h messages)))
    with (token_limit (self h)).
  destruct (n >? token_limit (self h))%Z eqn:Hcmp; [lia | reflexivity].
Qed.

Lemma aput_returns `{Python} (fuel : nat) (messages : list ChatMessage)
  (h : Heap) :
  (0 <= token_limit (self h))%Z ->
  total_tokenizer (tokenizer (self h)) ->
  length (memory h) + length messages <= fuel ->
  exists h', _aput fuel messages h = (Returned tt, h').
Proof.
  intros Hlimit Htotal Hfuel.
  destruct (_aput fuel messages h) as [out h'] eqn:Hrun.
  destruct (aput_spec _ _ _ Hrun) as (_ & Hout).
  destruct out as [[]|e|].
  - now exists h'.
  - destruct Hout as (_ & Hsum).
    destruct (total_tokenizer_costs
                (memory h ++ map memory_str messages)%list Htotal) as [n Hn].
    unfold costs in Hn. congruence.
  - lia.
Qed.

(** More fuel does not change a run that ended. *)
Lemma while_too_large_more_fuel (fuel : nat) :
  forall (fuel' : nat) (n : Z) (h : Heap) (out : Outcome unit) (h' : Heap),
    while_too_large fuel n h = (out, h') ->
    out <> OutOfFuel ->
    fuel <= fuel' ->
    while_too_large fuel' n h = (out, h').
Proof.
  induction fuel as [|fuel IH]; intros fuel' n h out h' Hrun Hout Hle;
    rewrite while_too_large_eq in Hrun; rewrite while_too_large_eq;
    destruct (n >? token_limit (self h))%Z; try assumption.
  - injection Hrun as <- <-. now destruct Hout.
  - destruct fuel' as [|fuel']; [lia|].
    rewrite trim_eq in *.
    destruct (token_sum (tokenizer (self (snd (drop_oldest h))))
                        (memory (snd (drop_oldest h)))); [assumption|].
    apply IH; auto. lia.
Qed.

Lemma aput_more_fuel `{Python} (fuel fuel' : nat) (messages : list ChatMessage)
  (h : Heap) (out : Outcome unit) (h' : Heap) :
  _aput fuel messages h = (out, h') ->
  out <> OutOfFuel ->
  fuel <= fuel' ->
  _aput fuel' messages h = (out, h').
Proof.
  rewrite !aput_eq, !trim_eq.
  destruct (token_sum (tokenizer (self (appended h messages)))
                      (memory (appended h messages))); [auto|].
  apply while_too_large_more_fuel.
Qed.

(** A run that returns used one round of the loop per dropped string: fuel
    for exactly that many rounds gives the same run. *)
Lemma while_too_large_rounds (fuel : nat) :
  forall (n : Z) (h h' : Heap),
    token_sum (tokenizer (self h)) (memory h) = inr n ->
    while_too_large fuel n h = (Returned tt, h') ->
    exists dropped,
      evicted h' = (evicted h ++ dropped)%list
      /\ while_too_large (length dropped) n h = (Returned tt, h').
Proof.
  induction fuel as [|fuel IH]; intros n h h' Hn Hrun;
    rewrite while_too_large_eq in Hrun;
    destruct (n >? token_limit (self h))%Z eqn:Hcmp; try discriminate.
  - injection Hrun as <-. exists []. rewrite app_nil_r.
    split; [reflexivity|]. now rewrite while_too_large_eq, Hcmp.
  - destruct (memory h) as [|oldest rest] eqn:Hmem.
    + rewrite (drop_oldest_nil h Hmem), trim_eq, Hmem, token_sum_nil in Hrun.
      assert (n = 0%Z) as -> by (rewrite token_sum_nil in Hn; congruence).
      apply (IH 0%Z h h'); [now rewrite Hmem | exact Hrun].
    + rewrite (drop_oldest_cons h Hmem), trim_eq in Hrun.
      destruct (@costs_tail _ _ _ _ Hn) as (k & Hk & _). unfold costs in Hk.
      cbn in Hrun. unfold memory in Hrun. cbn in Hrun. rewrite Hk in Hrun.
      destruct (IH k (mkHeap (set_current_memory (self h) rest)
                             (evicted h ++ [oldest])%list) h' Hk Hrun)
        as (dropped & Hev & Hrounds).
      exists (oldest :: dropped). cbn [evicted] in Hev. split.
      * now rewrite Hev, <- app_assoc.
      * cbn [length]. rewrite while_too_large_eq, Hcmp.
        rewrite (drop_oldest_cons h Hmem), trim_eq.
        cbn. unfold memory. cbn. now rewrite Hk.
  - injection Hrun as <-. exists []. rewrite app_nil_r.
    split; [reflexivity|]. now rewrite while_too_large_eq, Hcmp.
Qed.

Lemma aput_rounds `{Python} (fuel : nat) (messages : list ChatMessage)
  (h h' : Heap) :
  _aput fuel messages h = (Returned tt, h') ->
  exists dropped,
    evicted h' = (evicted h ++ dropped)%list
    /\ _aput (length dropped) messages h = (Returned tt, h').
Proof.
  rewrite aput_eq, trim_eq.
  destruct (token_sum (tokenizer (self (appended h messages)))
                      (memory (appended h messages))) as [e|n] eqn:Hsum;
    [discriminate|].
  intros Hrun.
  destruct (while_too_large_rounds _ _ Hsum Hrun) as (dropped & Hev & Hrounds).
  exists dropped. split; [exact Hev|].
  now rewrite aput_eq, trim_eq, Hsum.
Qed.

(** ** Runs of calls *)

Lemma aput_calls_cons `{Python} (fuel : nat) (messages : list ChatMessage)
  (rest : list (list ChatMessage)) (h : Heap) (out : Outcome unit) (h' : Heap) :
  aput_calls fuel (messages :: rest) h = (out, h') ->
  (exists mid, _aput fuel messages h = (Returned tt, mid)
               /\ aput_calls fuel rest mid = (out, h'))
  \/ (_aput fuel messages h = (out, h') /\ out <> Returned tt).
Proof.
  cbn. destruct (_aput fuel messages h) as [[[]|e|] mid].
  - intros Hrest. left. now exists mid.
  - intros [= <- <-]. right. split; [reflexivity | discriminate].
  - intros [= <- <-]. right. split; [reflexivity | discriminate].
Qed.

Lemma aput_calls_snoc `{Python} (fuel : nat) (calls : list (list ChatMessage))
  (messages : list ChatMessage) (h h' : Heap) :
  aput_calls fuel (calls ++ [messages])%list h = (Returned tt, h') ->
  exists before,
    aput_calls fuel calls h = (Returned tt, before)
    /\ _aput fuel messages before = (Returned tt, h').
Proof.
  revert h. induction calls as [|first calls IH]; intros h Hrun.
  - exists h. split; [reflexivity|].
    destruct (aput_calls_cons _ _ _ _ Hrun) as [(mid & Hput & Hnil)|[_ Hno]];
      [|now destruct Hno].
    cbn in Hnil. now injection Hnil as <-.
  - change ((first :: calls) ++ [messages])%list
      with (first :: (calls ++ [messages]))%list in Hrun.
    destruct (aput_calls_cons _ _ _ _ Hrun) as [(mid & Hput & Hrest)|[_ Hno]];
      [|now destruct Hno].
    destruct (IH mid Hrest) as (before & Hcalls & Hlast).
    exists before. split; [|exact Hlast].
    cbn. now rewrite Hput.
Qed.

(** C1.  Condensation bound.  After every call of [_aput] that returns, in
    any run of calls from any starting state, the strings the block holds
    cost at most [token_limit] tokens in all.  The bound holds without
    exception, so also where the claim allows one entry of slack.  The call
    drops strings from the oldest end only, and only while the block is
    above the limit: putting the last dropped string back would exceed
    it. *)
Theorem condensation_bound `{Python} (fuel : nat)
  (calls : list (list ChatMessage)) (messages : list ChatMessage)
  (h h' : Heap) :
  aput_calls fuel (calls ++ [messages])%list h = (Returned tt, h') ->
  within_limit h'
  /\ exists before dropped,
       aput_calls fuel calls h = (Returned tt, before)
       /\ evicted h' = (evicted before ++ dropped)%list
       /\ (memory before ++ map memory_str messages)%list
          = (dropped ++ memory h')%list
       /\ forall front d, dropped = (front ++ [d])%list ->
            exists c,
              token_sum (tokenizer (self h')) (d :: memory h') = inr c
              /\ (token_limit (self h') < c)%Z.
Proof.
  intros Hrun.
  destruct (aput_calls_snoc _ _ _ _ Hrun) as (before & Hcalls & Hlast).
  destruct (aput_spec _ _ _ Hlast)
    as ((_ & Hlim & Htok) & Hbound & dropped & Hev & Hm & _ & Hmin).
  split; [exact Hbound|].
  exists before, dropped. rewrite Hlim, Htok. now repeat split.
Qed.

(** C3.  First in, first out.  Over any run of [_aput] calls that returns,
    the strings dropped so far, in the order they were dropped, followed by
    the strings still held, are exactly the strings inserted, in insertion
    order.  So strings leave oldest first and the survivors keep their
    order. *)
Theorem fifo_eviction `{Python} (fuel : nat) (calls : list (list ChatMessage))
  (h h' : Heap) :
  aput_calls fuel calls h = (Returned tt, h') ->
  (evicted h' ++ memory h')%list
  = (evicted h ++ memory h ++ concat (map (map memory_str) calls))%list
  /\ exists dropped, evicted h' = (evicted h ++ dropped)%list.
Proof.
  revert h. induction calls as [|messages calls IH]; intros h Hrun.
  - cbn in Hrun. injection Hrun as <-. cbn. rewrite app_nil_r.
    split; [reflexivity|]. exists []. now rewrite app_nil_r.
  - destruct (aput_calls_cons _ _ _ _ Hrun) as [(mid & Hput & Hrest)|[_ Hno]];
      [|now destruct Hno].
    destruct (aput_spec _ _ _ Hput) as (_ & _ & dropped & Hev & Hm & _).
    destruct (IH mid Hrest) as (Hall & later & Hlater).
    split.
    + rewrite Hall, Hev. cbn. rewrite <- !app_assoc. f_equal.
      rewrite !app_assoc. f_equal. now rewrite <- Hm.
    + exists (dropped ++ later)%list. now rewrite Hlater, Hev, app_assoc.
Qed.

(** C9, as amended.  With a non-negative [token_limit] and a tokenizer that
    never raises, [_aput] returns once the fuel covers the length of the
    list at the start of the loop.  The loop runs one round per dropped
    string, the oldest each time, so at most as many rounds as the list is
    long, and more fuel changes nothing. *)
Theorem eviction_terminates `{Python} (messages : list ChatMessage) (h : Heap) :
  (0 <= token_limit (self h))%Z ->
  total_tokenizer (tokenizer (self h)) ->
  exists h' dropped,
    _aput (length (memory h) + length messages) messages h = (Returned tt, h')
    /\ evicted h' = (evicted h ++ dropped)%list
    /\ (memory h ++ map memory_str messages)%list = (dropped ++ memory h')%list
    /\ length dropped <= length (memory h) + length messages
    /\ _aput (length dropped) messages h = (Returned tt, h')
    /\ forall fuel, length dropped <= fuel ->
         _aput fuel messages h = (Returned tt, h').
Proof.
  intros Hlimit Htotal.
  destruct (aput_returns messages h Hlimit Htotal (Nat.le_refl _)) as [h' Hrun].
  destruct (aput_spec _ _ _ Hrun) as (_ & _ & dropped & Hev & Hm & Hlen & _).
  destruct (@aput_rounds _ _ _ _ _ Hrun) as (dropped' & Hev' & Hrounds).
  assert (dropped' = dropped) as ->
    by (rewrite Hev in Hev'; now apply app_inv_head in Hev').
  exists h', dropped. repeat split; auto.
  intros fuel Hfuel.
  apply (@aput_more_fuel _ _ fuel _ _ _ _ Hrounds); [discriminate | exact Hfuel].
Qed.

(** ** The oversized entry *)

(** C2, as amended.  A single turn whose rendered form alone costs more
    than a non-negative [token_limit], put into an empty block, is dropped
    again by the same call: the call returns without raising, the block is
    empty, and the string left whole, as the only eviction. *)
Theorem oversized_entry_evicted `{Python} (fuel : nat) (message : ChatMessage)
  (h : Heap) (c : Z) :
  memory h = [] ->
  token_sum (tokenizer (self h)) [memory_str message] = inr c ->
  (0 <= token_limit (self h) < c)%Z ->
  1 <= fuel ->
  exists h',
    _aput fuel [message] h = (Returned tt, h')
    /\ memory h' = []
    /\ evicted h' = (evicted h ++ [memory_str message])%list
    /\ same_object h h'
    /\ within_limit h'.
Proof.
  intros Hempty Hcost Hlimit Hfuel.
  destruct fuel as [|fuel]; [lia|].
  eexists. split.
  - rewrite aput_eq, trim_eq.
    change (tokenizer (self (appended h [message]))) with (tokenizer (self h)).
    change (memory (appended h [message]))
      with (memory h ++ [memory_str message])%list.
    rewrite Hempty. cbn [app]. rewrite Hcost, while_too_large_eq.
    change (token_limit (self (appended h [message])))
      with (token_limit (self h)).
    destruct (c >? token_limit (self h))%Z eqn:Hcmp; [|lia].
    rewrite (@drop_oldest_cons (appended h [message]) (memory_str message) []);
      [|unfold appended, memory; cbn; unfold memory in Hempty; now rewrite Hempty].
    rewrite trim_eq. cbn [self memory set_current_memory current_memory tokenizer].
    unfold memory. cbn [self set_current_memory current_memory].
    rewrite token_sum_nil, while_too_large_eq.
    cbn [self set_current_memory token_limit appended].
    destruct (0 >? token_limit (self h))%Z eqn:Hcmp0; [lia | reflexivity].
  - cbn. repeat split.
    exists 0%Z. split; [reflexivity | cbn; lia].
Qed.

(** ** A failing tokenizer *)

(** C4, as amended.  When the tokenizer raises on one of the strings the
    call measures (a string already held or one just rendered), [_aput]
    raises, and the block is left with every rendered string of the call
    appended to [current_memory] and nothing dropped. *)
Theorem tokenizer_failure_keeps_appended `{Python} (fuel : nat)
  (messages : list ChatMessage) (h : Heap) (text : string) :
  In text (memory h ++ map memory_str messages)%list ->
  tokenizer (self h) text = None ->
  exists e h',
    _aput fuel messages h = (Raised e, h')
    /\ memory h' = (memory h ++ map memory_str messages)%list
    /\ evicted h' = evicted h
    /\ same_object h h'.
Proof.
  intros Hin Hfail.
  destruct (@token_sum_fails _ _ _ Hin Hfail) as [e He].
  exists e, (appended h messages). split; [|now repeat split].
  rewrite aput_eq, trim_eq.
  change (tokenizer (self (appended h messages))) with (tokenizer (self h)).
  change (memory (appended h messages))
    with (memory h ++ map memory_str messages)%list.
  now rewrite He.
Qed.

(** A raise of [_aput] always comes from the tokenizer, on the first sum. *)
Lemma aput_raise_state `{Python} (fuel : nat) (messages : list ChatMessage)
  (h h' : Heap) (e : Exception) :
  _aput fuel messages h = (Raised e, h') ->
  h' = appended h messages
  /\ exists text,
       In text (memory h ++ map memory_str messages)%list
       /\ tokenizer (self h) text = None
       /\ e = TokenizationError text.
Proof.
  intros Hrun. destruct (aput_spec _ _ _ Hrun) as (_ & Hstate & Hsum).
  split; [exact Hstate|]. now apply token_sum_raises.
Qed.

(** ** The rendered form *)

Lemma without_session_id_remaining `{Python} (m : ChatMessage) :
  without_session_id (additional_kwargs m) = remaining_kwargs m.
Proof.
  unfold without_session_id, remaining_kwargs. apply filter_ext.
  intros [key val]. cbn [fst].
  destruct (string_dec key "session_id") as [->|Hne].
  - reflexivity.
  - apply String.eqb_neq in Hne. now rewrite Hne.
Qed.

Lemma memory_str_canonical `{Python} (m : ChatMessage) :
  memory_str m = canonical_form m.
Proof.
  unfold memory_str, canonical_form, role_tag, text_part, aux_part,
    closing_tag, text_segments.
  rewrite <- text_blocks_filter, without_session_id_remaining, str_truthy_eqb.
  replace (String.concat nl (text_blocks (blocks m)))
    with (join nl (text_blocks (blocks m))) by apply join_concat.
  destruct (String.eqb (join nl (text_blocks (blocks m))) "");
    destruct (remaining_kwargs m); cbn [negb truthy];
    rewrite ?append_assoc; reflexivity.
Qed.

(** C5.  Canonical form.  The [for] loop of [_aput] appends one string per
    message, in order, and nothing else; each string is the role tag, the
    text segments joined by line feeds when that text is not empty, the
    auxiliary data without [session_id] when a key remains, and the closing
    tag.  The trimming that follows works on that list. *)
Theorem flushed_turns_canonical `{Python} (fuel : nat)
  (messages : list ChatMessage) (h : Heap) :
  exists mid,
    for_each messages (fun message => append_memory (memory_str message)) h
    = (Returned tt, mid)
    /\ memory mid = (memory h ++ map canonical_form messages)%list
    /\ length (memory mid) = length (memory h) + length messages
    /\ evicted mid = evicted h
    /\ same_object h mid
    /\ _aput fuel messages h = trim fuel mid.
Proof.
  exists (appended h messages). rewrite for_each_append, aput_eq.
  assert (Hmap : map memory_str messages = map canonical_form messages)
    by (apply map_ext; intros m; apply memory_str_canonical).
  repeat split.
  - unfold appended, memory. cbn. now rewrite Hmap.
  - unfold appended, memory. cbn. now rewrite length_app, length_map.
Qed.

(** C6.  [_aget] is a pure read: it returns the stored strings joined by
    line feeds and leaves the heap as it was, so two calls in a row return
    the same text. *)
Theorem aget_pure_idempotent `{Python}
  (messages messages' : option (list ChatMessage)) (h : Heap) :
  _aget messages h = (Returned (join nl (memory h)), h)
  /\ (first <- _aget messages ;;
      second <- _aget messages' ;;
      ret (first, second)) h
     = (Returned (join nl (memory h), join nl (memory h)), h).
Proof. split; reflexivity. Qed.

Lemma text_blocks_only_text (bs : list ContentBlock) :
  text_blocks (filter is_TextBlock bs) = text_blocks bs.
Proof.
  induction bs as [|[t|u|a] bs IH]; cbn; try assumption.
  - reflexivity.
  - now rewrite IH.
Qed.

Lemma without_session_id_idempotent `{Python} (d : Dict) :
  without_session_id (without_session_id d) = without_session_id d.
Proof.
  unfold without_session_id. induction d as [|[key val] d IH]; [reflexivity|].
  cbn [filter fst].
  destruct (negb (String.eqb key "session_id")) eqn:Hkeep; [|exact IH].
  cbn [filter fst]. now rewrite Hkeep, IH.
Qed.

Lemma without_session_id_In `{Python} (d : Dict) (key : string) (val : Value) :
  In (key, val) (without_session_id d)
  <-> In (key, val) d /\ key <> "session_id".
Proof.
  unfold without_session_id. rewrite filter_In. cbn [fst].
  rewrite negb_true_iff, String.eqb_neq. reflexivity.
Qed.

Lemma without_session_id_wf `{Python} (d : Dict) :
  wf_dict d -> wf_dict (without_session_id d).
Proof.
  unfold wf_dict, without_session_id.
  induction d as [|[key val] d IH]; intros Hwf; [exact Hwf|].
  inversion Hwf as [|? ? Hnotin Hrest]; subst. cbn [filter fst].
  destruct (negb (String.eqb key "session_id")); [|now apply IH].
  cbn [map fst]. constructor; [|now apply IH].
  intros Hin. apply Hnotin. apply in_map_iff in Hin as ([k v] & <- & Hkv).
  apply filter_In in Hkv as [Hkv _]. apply in_map_iff. now exists (k, v).
Qed.

(** C10.  Only text blocks and unfiltered keys reach the rendered string.
    Removing every block that is not a [TextBlock] leaves the rendered
    string, and so the whole call, unchanged; so does removing the key
    [session_id]; the key [session_id] is not displayed; and every other
    key is: its item, [repr(key): repr(value)], occurs in the string.  The
    text blocks do contribute: their texts, joined by line feeds in block
    order, occur in the string, and so does the text of each of them. *)
Theorem only_text_and_unfiltered_keys `{Python} (r : MessageRole)
  (bs : list ContentBlock) (kwargs : Dict) :
  memory_str (mkChatMessage r bs kwargs)
  = memory_str (mkChatMessage r (filter is_TextBlock bs) kwargs)
  /\ memory_str (mkChatMessage r bs kwargs)
     = memory_str (mkChatMessage r bs (without_session_id kwargs))
  /\ (forall fuel h,
        _aput fuel [mkChatMessage r bs kwargs] h
        = _aput fuel [mkChatMessage r (filter is_TextBlock bs)
                                    (without_session_id kwargs)] h)
  /\ ~ In "session_id" (map fst (without_session_id kwargs))
  /\ (forall key val,
        In (key, val) (without_session_id kwargs)
        <-> In (key, val) kwargs /\ key <> "session_id")
  /\ (forall key val,
        In (key, val) kwargs -> key <> "session_id" ->
        occurs_in (repr_item (key, val))
                  (memory_str (mkChatMessage r bs kwargs)))
  /\ occurs_in (join nl (text_blocks bs))
               (memory_str (mkChatMessage r bs kwargs))
  /\ (forall text,
        In (TextBlock text) bs ->
        occurs_in text (memory_str (mkChatMessage r bs kwargs))).
Proof.
  assert (Htext : memory_str (mkChatMessage r bs kwargs)
                  = memory_str (mkChatMessage r (filter is_TextBlock bs) kwargs))
    by (unfold memory_str; cbn [blocks role additional_kwargs];
        now rewrite text_blocks_only_text).
  assert (Hkeys : forall bs', memory_str (mkChatMessage r bs' kwargs)
                  = memory_str (mkChatMessage r bs' (without_session_id kwargs)))
    by (intros bs'; unfold memory_str; cbn [blocks role additional_kwargs];
        now rewrite without_session_id_idempotent).
  split; [exact Htext|]. split; [apply Hkeys|]. split.
  { intros fuel h. rewrite !aput_eq. unfold appended. cbn [map].
    now rewrite Htext, Hkeys. }
  split.
  { intros Hin. apply in_map_iff in Hin as ([key val] & Hkey & Hin).
    cbn [fst] in Hkey. subst key.
    apply without_session_id_In in Hin as [_ Hne]. now apply Hne. }
  split; [intros key val; apply without_session_id_In|].
  split.
  { intros key val Hin Hne.
    assert (Hkept : In (key, val) (without_session_id kwargs))
      by now apply without_session_id_In.
    unfold memory_str. cbn [blocks role additional_kwargs].
    destruct (without_session_id kwargs) as [|first rest] eqn:Hfiltered;
      [destruct Hkept|]. cbn [truthy].
    apply occurs_in_append_r, occurs_in_append_l, occurs_in_append_l,
      occurs_in_append_l, occurs_in_append_r.
    unfold repr_dict.
    apply occurs_in_append_l, occurs_in_append_r.
    apply occurs_in_join. now apply in_map. }
  assert (Hjoined : occurs_in (join nl (text_blocks bs))
                              (memory_str (mkChatMessage r bs kwargs))).
  { unfold memory_str. cbn [blocks role additional_kwargs].
    destruct (join nl (text_blocks bs)) as [|c text] eqn:Hjoin.
    - exists "". eexists. reflexivity.
    - cbn [str_truthy].
      apply occurs_in_append_r.
      destruct (truthy (without_session_id kwargs));
        [apply occurs_in_append_r|];
        apply occurs_in_append_l, occurs_in_append_l, occurs_in_refl. }
  split; [exact Hjoined|].
  intros text Hin.
  assert (Hlisted : In text (text_blocks bs)).
  { clear - Hin. induction bs as [|[t|u|a] bs IH]; cbn in *;
      try (destruct Hin as [Heq|Hin]; [discriminate | now apply IH]).
    - destruct Hin.
    - destruct Hin as [[= ->]|Hin]; [now left | right; now apply IH]. }
  destruct Hjoined as (pre & post & Hwhole).
  destruct (@occurs_in_join nl _ _ Hlisted) as (pre' & post' & Hpart).
  exists (pre ++ pre'), (post' ++ post).
  rewrite Hwhole, Hpart. now rewrite !append_assoc.
Qed.

(** ** The session *)

Lemma within_threshold_true `{Python} (ratio : Q) (h : Heap) (cost : Z) :
  Session.within_threshold ratio h cost = true
  <-> (inject_Z cost <= ratio * inject_Z (token_limit (self h)))%Q.
Proof. unfold Session.within_threshold. apply Qle_bool_iff. Qed.

Lemma within_threshold_false `{Python} (ratio : Q) (h : Heap) (cost : Z) :
  Session.within_threshold ratio h cost = false
  <-> (ratio * inject_Z (token_limit (self h)) < inject_Z cost)%Q.
Proof.
  unfold Session.within_threshold. split.
  - intros Hfalse. apply Qnot_le_lt. intros Hle.
    apply Qle_bool_iff in Hle. congruence.
  - intros Hlt.
    destruct (Qle_bool (inject_Z cost)
                (ratio * inject_Z (token_limit (self h)))) eqn:Hle;
      [|reflexivity].
    apply Qle_bool_iff in Hle. now apply Qlt_not_le in Hlt.
Qed.



Lemma appended_appended `{Python} (h : Heap) (first : ChatMessage)
  (rest : list ChatMessage) :
  appended (appended h [first]) rest = appended h (first :: rest).
Proof.
  unfold appended, memory. cbn. now rewrite <- app_assoc.
Qed.

(** What the loop of [flush] leaves, however it ends: the block's fixed
    fields are untouched, and when it returns, the turns it kept are the
    newest ones and fit the threshold unless none is left. *)
Lemma flush_window_spec `{Python} (fuel : nat) (ratio : Q)
  (live : list ChatMessage) :
  forall (h : Heap) (out : Outcome (list ChatMessage)) (h' : Heap),
    Session.flush_window fuel ratio live h = (out, h') ->
    same_object h h'
    /\ match out with
       | Returned kept =>
           (exists moved, live = (moved ++ kept)%list)
           /\ (kept = []
               \/ exists cost,
                    Session.window_cost h' kept = inr cost
                    /\ Session.within_threshold ratio h' cost = true)
       | _ => True
       end.
Proof.
  induction live as [|oldest rest IH]; intros h out h' Hrun.
  - cbn in Hrun. injection Hrun as <- <-.
    split; [apply same_object_refl|]. split; [now exists [] | now left].
  - cbn [Session.flush_window] in Hrun.
    destruct (Session.window_cost h (oldest :: rest)) as [e|cost] eqn:Hcost.
    + injection Hrun as <- <-. split; [apply same_object_refl | exact I].
    + destruct (Session.within_threshold ratio h cost) eqn:Hfit.
      * injection Hrun as <- <-. split; [apply same_object_refl|].
        split; [now exists []|]. right. now exists cost.
      * cbn in Hrun.
        destruct (_aput fuel [oldest] h) as [[[]|e|] mid] eqn:Hput.
        -- destruct (aput_spec _ _ _ Hput) as (Hsame & _).
           destruct (IH mid out h' Hrun) as (Hsame' & Hout).
           split; [now apply (same_object_trans Hsame)|].
           destruct out as [kept|e|]; auto.
           destruct Hout as ((moved & ->) & Hkept).
           split; [now exists (oldest :: moved) | exact Hkept].
        -- destruct (aput_spec _ _ _ Hput) as (Hsame & _).
           injection Hrun as <- <-. now split.
        -- destruct (aput_spec _ _ _ Hput) as (Hsame & _).
           injection Hrun as <- <-. now split.
Qed.

Lemma flush_spec `{Python} (fuel : nat) (s s' : Session.Session) :
  Session.flush fuel s = (Returned tt, s') ->
  Session.chat_history_token_ratio s' = Session.chat_history_token_ratio s
  /\ Session.session_id s' = Session.session_id s
  /\ Session.insert_method s' = Session.insert_method s
  /\ same_object (Session.condensation s) (Session.condensation s')
  /\ (exists moved,
        Session.live_window s = (moved ++ Session.live_window s')%list)
  /\ (Session.live_window s' = []
      \/ exists cost,
           Session.window_cost (Session.condensation s')
                               (Session.live_window s') = inr cost
           /\ Session.within_threshold (Session.chat_history_token_ratio s')
                (Session.condensation s') cost = true).
Proof.
  unfold Session.flush.
  destruct (Session.flush_window fuel (Session.chat_history_token_ratio s)
              (Session.live_window s) (Session.condensation s))
    as [[kept|e|] h'] eqn:Hrun; try discriminate.
  intros [= <-]. destruct (flush_window_spec _ _ _ _ Hrun) as (Hsame & Hmoved & Hfit).
  cbn. repeat split; auto; apply Hsame.
Qed.

(** With a threshold that is not negative, the session is [UNDER_BUDGET]
    after every flush that returns, the empty window included. *)
Lemma flush_under_budget `{Python} (fuel : nat) (s s' : Session.Session) :
  (0 <= Session.chat_history_token_ratio s
        * inject_Z (token_limit (self (Session.condensation s))))%Q ->
  Session.flush fuel s = (Returned tt, s') ->
  Session.budget_state s' = inr Session.UNDER_BUDGET.
Proof.
  intros Hthreshold Hflush.
  destruct (flush_spec _ _ Hflush)
    as (Hratio & _ & _ & (_ & Hlimit & _) & _ & Hfit).
  unfold Session.budget_state.
  destruct Hfit as [Hnil|(cost & Hcost & Hle)].
  - rewrite Hnil. unfold Session.window_cost. cbn [map].
    rewrite token_sum_nil.
    replace (Session.within_threshold _ _ 0) with true; [reflexivity|].
    symmetry. apply within_threshold_true. now rewrite Hratio, Hlimit.
  - now rewrite Hcost, Hle.
Qed.

(** [flush] returns: with a non-negative [token_limit], a tokenizer that
    never raises and fuel for the strings at hand, its loop ends. *)
Lemma flush_window_returns `{Python} (fuel : nat) (ratio : Q)
  (live : list ChatMessage) :
  forall h : Heap,
    (0 <= token_limit (self h))%Z ->
    total_tokenizer (tokenizer (self h)) ->
    length (memory h) + length live <= fuel ->
    exists kept h',
      Session.flush_window fuel ratio live h = (Returned kept, h').
Proof.
  induction live as [|oldest rest IH]; intros h Hlimit Htotal Hfuel.
  - now exists [], h.
  - cbn [Session.flush_window].
    destruct (total_tokenizer_costs (map memory_str (oldest :: rest)) Htotal)
      as [cost Hcost].
    unfold costs in Hcost. unfold Session.window_cost. rewrite Hcost.
    destruct (Session.within_threshold ratio h cost); [now eexists; eexists|].
    cbn [length] in Hfuel.
    destruct (@aput_returns _ fuel [oldest] h Hlimit Htotal) as [mid Hput];
      [cbn; lia|].
    cbn. rewrite Hput.
    destruct (aput_spec _ _ _ Hput)
      as ((_ & Hl & Ht) & _ & dropped & _ & Hm & _).
    apply IH.
    + now rewrite Hl.
    + now rewrite Ht.
    + apply (f_equal (@length string)) in Hm.
      rewrite !length_app in Hm. cbn in Hm. lia.
Qed.

Lemma flush_returns `{Python} (fuel : nat) (s : Session.Session) :
  (0 <= token_limit (self (Session.condensation s)))%Z ->
  total_tokenizer (tokenizer (self (Session.condensation s))) ->
  length (memory (Session.condensation s)) + length (Session.live_window s)
  <= fuel ->
  exists s', Session.flush fuel s = (Returned tt, s').
Proof.
  intros Hlimit Htotal Hfuel.
  destruct (@flush_window_returns _ fuel (Session.chat_history_token_ratio s)
              (Session.live_window s) (Session.condensation s)
              Hlimit Htotal Hfuel) as (kept & h' & Hrun).
  unfold Session.flush. rewrite Hrun. now eexists.
Qed.

(** C8, as amended.  Budget after a flush.  After any run of [append]
    calls, whenever a [flush] returns, the live window is empty or its token
    cost is at most [chat_history_token_ratio * token_limit], and the turns
    that remain are the newest ones in their order.  When [token_limit] and
    that threshold are not negative and the tokenizer never raises, the
    [flush] does return, given fuel for the strings at hand, and the session
    is then [UNDER_BUDGET]. *)
Theorem flush_restores_budget `{Python} (fuel : nat)
  (calls : list (bool * list ChatMessage)) (s s1 : Session.Session) :
  Session.appends fuel s calls = (Returned tt, s1) ->
  (forall s2,
     Session.flush fuel s1 = (Returned tt, s2) ->
     (Session.live_window s2 = []
      \/ exists cost,
           Session.window_cost (Session.condensation s2)
                               (Session.live_window s2) = inr cost
           /\ (inject_Z cost
               <= Session.chat_history_token_ratio s2
                  * inject_Z (token_limit (self (Session.condensation s2))))%Q)
     /\ (Session.live_window s2 = []
         \/ Session.budget_state s2 = inr Session.UNDER_BUDGET)
     /\ exists moved,
          Session.live_window s1 = (moved ++ Session.live_window s2)%list)
  /\ ((0 <= token_limit (self (Session.condensation s1)))%Z ->
      (0 <= Session.chat_history_token_ratio s1
            * inject_Z (token_limit (self (Session.condensation s1))))%Q ->
      total_tokenizer (tokenizer (self (Session.condensation s1))) ->
      length (memory (Session.condensation s1))
      + length (Session.live_window s1) <= fuel ->
      exists s2 cost,
        Session.flush fuel s1 = (Returned tt, s2)
        /\ Session.budget_state s2 = inr Session.UNDER_BUDGET
        /\ Session.window_cost (Session.condensation s2)
                               (Session.live_window s2) = inr cost
        /\ (inject_Z cost
            <= Session.chat_history_token_ratio s2
               * inject_Z (token_limit (self (Session.condensation s2))))%Q).
Proof.
  intros _. split.
  - intros s2 Hflush.
    destruct (flush_spec _ _ Hflush) as (_ & _ & _ & _ & Hmoved & Hfit).
    split; [|split; [|exact Hmoved]].
    + destruct Hfit as [Hnil|(cost & Hcost & Hle)]; [now left | right].
      exists cost. split; [exact Hcost | now apply within_threshold_true].
    + destruct Hfit as [Hnil|(cost & Hcost & Hle)]; [now left | right].
      unfold Session.budget_state. now rewrite Hcost, Hle.
  - intros Hlimit Hthreshold Htotal Hfuel.
    destruct (@flush_returns _ fuel s1 Hlimit Htotal Hfuel) as [s2 Hflush].
    pose proof (@flush_under_budget _ fuel s1 s2 Hthreshold Hflush) as Hunder.
    unfold Session.budget_state in Hunder.
    destruct (Session.window_cost (Session.condensation s2)
                                  (Session.live_window s2))
      as [e|cost] eqn:Hcost; [discriminate|].
    destruct (Session.within_threshold (Session.chat_history_token_ratio s2)
                (Session.condensation s2) cost) eqn:Hle; [|discriminate].
    exists s2, cost. split; [exact Hflush|]. split.
    + unfold Session.budget_state. now rewrite Hcost, Hle.
    + split; [exact Hcost | now apply within_threshold_true].
Qed.

(** When every turn alone costs more than the threshold and the block has
    room for all of them, the loop of [flush] moves the whole window and
    the block drops nothing. *)
Lemma flush_window_moves_all `{Python} (fuel : nat) (ratio : Q)
  (live : list ChatMessage) :
  forall (h : Heap) (n : Z),
    token_sum (tokenizer (self h)) (memory h ++ map memory_str live)%list
    = inr n ->
    (n <= token_limit (self h))%Z ->
    Forall (fun m =>
              exists c,
                token_sum (tokenizer (self h)) [memory_str m] = inr c
                /\ (ratio * inject_Z (token_limit (self h)) < inject_Z c)%Q)
           live ->
    Session.flush_window fuel ratio live h = (Returned [], appended h live).
Proof.
  induction live as [|oldest rest IH]; intros h n Hsum Hroom Hover.
  - cbn. unfold appended. cbn. rewrite app_nil_r.
    now destruct h as [[nm mem lim tok] ev].
  - cbn [Session.flush_window].
    inversion Hover as [|? ? (c & Hc & Hlt) Hrest]; subst.
    destruct (costs_app _ _ Hsum) as (a & w & Ha & Hw & ->).
    change (map memory_str (oldest :: rest))
      with ([memory_str oldest] ++ map memory_str rest)%list in Hw.
    destruct (costs_app _ _ Hw) as (c' & w' & Hc' & Hw' & ->).
    unfold costs in Hc', Hw', Ha. rewrite Hc in Hc'. injection Hc' as <-.
    pose proof (@costs_nonneg _ _ _ Ha) as Ha0.
    pose proof (@costs_nonneg _ _ _ Hw') as Hw0.
    unfold Session.window_cost.
    change (map memory_str (oldest :: rest))
      with ([memory_str oldest] ++ map memory_str rest)%list.
    rewrite (costs_app_intro Hc Hw').
    replace (Session.within_threshold ratio h (c + w')) with false.
    2:{ symmetry. apply within_threshold_false.
        apply (Qlt_le_trans _ _ _ Hlt). rewrite <- Zle_Qle. lia. }
    cbn.
    rewrite (@aput_fits _ fuel [oldest] h (a + c));
      [| exact (costs_app_intro Ha Hc) | lia].
    rewrite (IH (appended h [oldest]) (a + (c + w'))%Z).
    + now rewrite appended_appended.
    + unfold appended at 2. unfold memory at 1. cbn.
      now rewrite <- app_assoc.
    + cbn. lia.
    + exact Hrest.
Qed.

(** C7.  Round trip of the notebook.  With a threshold below the cost of
    each of the four turns and a block with room for their rendered forms,
    appending the four turns with the flush it forces empties the live
    window; the block then holds the four rendered strings in order,
    [_aget] returns them joined by line feeds, which is the text the
    notebook shows, and [render] is that text as one synthetic turn followed
    by no live turn.  One [_aput] of the four messages leaves the block in
    the same state. *)
Theorem round_trip (fuel : nat) (limit : Z) (enc : Encoding) (ratio : Q)
  (total : Z) :
  token_sum enc (map memory_str initial_messages) = inr total ->
  (total <= limit)%Z ->
  Forall (fun m =>
            exists c,
              token_sum enc [memory_str m] = inr c
              /\ (ratio * inject_Z limit < inject_Z c)%Q)
         initial_messages ->
  exists s,
    Session.append fuel true (new_session limit enc ratio) initial_messages
    = (Returned tt, s)
    /\ Session.live_window s = []
    /\ memory (Session.condensation s) = map canonical_form initial_messages
    /\ evicted (Session.condensation s) = []
    /\ _aget None (Session.condensation s)
       = (Returned condensed_text, Session.condensation s)
    /\ Session.render s
       = [Session.synthetic_turn Session.insert_user condensed_text]
    /\ _aput fuel initial_messages (new_block limit enc)
       = (Returned tt, Session.condensation s).
Proof.
  intros Hsum Hroom Hover.
  unfold Session.append, Session.flush.
  cbn [Session.set_window Session.live_window Session.condensation
       Session.chat_history_token_ratio new_session app].
  rewrite (@flush_window_moves_all _ fuel ratio initial_messages
             (new_block limit enc) total Hsum Hroom Hover).
  eexists. split; [reflexivity|].
  repeat split.
  cbn [Session.condensation Session.set_window].
  now apply aput_fits with (n := total).
Qed.

(** * The properties at concrete inputs *)

Lemma char_tokenizer_total : total_tokenizer char_tokenizer.
Proof. intros text. discriminate. Qed.

(** The four messages, then the follow-up, into a block of 100 tokens: the
    four older strings are dropped and the bound holds. *)
Lemma condensation_bound_witness :
  aput_calls 10 ([initial_messages] ++ [[follow_up]])%list
             (new_block 100 char_tokenizer)
  = (Returned tt,
     snd (aput_calls 10 [initial_messages; [follow_up]]
                     (new_block 100 char_tokenizer)))
  /\ within_limit
       (snd (aput_calls 10 [initial_messages; [follow_up]]
                        (new_block 100 char_tokenizer))).
Proof.
  assert (Hrun : aput_calls 10 ([initial_messages] ++ [[follow_up]])%list
                   (new_block 100 char_tokenizer)
                 = (Returned tt,
                    snd (aput_calls 10 [initial_messages; [follow_up]]
                                    (new_block 100 char_tokenizer))))
    by (vm_compute; reflexivity).
  split; [exact Hrun|].
  exact (proj1 (condensation_bound 10 [initial_messages] [follow_up]
                  (new_block 100 char_tokenizer) Hrun)).
Defined.

Lemma fifo_eviction_witness :
  aput_calls 10 [initial_messages; [follow_up]] (new_block 100 char_tokenizer)
  = (Returned tt,
     snd (aput_calls 10 [initial_messages; [follow_up]]
                     (new_block 100 char_tokenizer)))
  /\ (evicted (snd (aput_calls 10 [initial_messages; [follow_up]]
                               (new_block 100 char_tokenizer)))
      ++ memory (snd (aput_calls 10 [initial_messages; [follow_up]]
                                 (new_block 100 char_tokenizer))))%list
     = ([] ++ [] ++ concat (map (map memory_str)
                                [initial_messages; [follow_up]]))%list.
Proof.
  assert (Hrun : aput_calls 10 [initial_messages; [follow_up]]
                   (new_block 100 char_tokenizer)
                 = (Returned tt,
                    snd (aput_calls 10 [initial_messages; [follow_up]]
                                    (new_block 100 char_tokenizer))))
    by (vm_compute; reflexivity).
  split; [exact Hrun|].
  exact (proj1 (fifo_eviction 10 [initial_messages; [follow_up]]
                  (new_block 100 char_tokenizer) Hrun)).
Defined.

(** C2: the claim fails.  With [token_limit = 10] and a turn of 50 tokens
    put into the empty block, the call returns and the block does not hold
    that entry: it holds nothing. *)
Lemma oversized_entry_not_kept :
  token_sum char_tokenizer [memory_str oversized_turn] = inr 50%Z
  /\ fst (_aput 10 [oversized_turn] (new_block 10 char_tokenizer))
     = Returned tt
  /\ memory (snd (_aput 10 [oversized_turn] (new_block 10 char_tokenizer)))
     = []
  /\ memory (snd (_aput 10 [oversized_turn] (new_block 10 char_tokenizer)))
     <> [memory_str oversized_turn].
Proof.
  split; [vm_compute; reflexivity|].
  split; [vm_compute; reflexivity|].
  split; [vm_compute; reflexivity|].
  vm_compute. discriminate.
Qed.

Lemma oversized_entry_evicted_witness :
  memory (new_block 10 char_tokenizer) = []
  /\ token_sum (tokenizer (self (new_block 10 char_tokenizer)))
               [memory_str oversized_turn] = inr 50%Z
  /\ (0 <= token_limit (self (new_block 10 char_tokenizer)) < 50)%Z
  /\ 1 <= 1
  /\ exists h',
       _aput 1 [oversized_turn] (new_block 10 char_tokenizer)
       = (Returned tt, h')
       /\ memory h' = []
       /\ evicted h'
          = (evicted (new_block 10 char_tokenizer)
             ++ [memory_str oversized_turn])%list
       /\ same_object (new_block 10 char_tokenizer) h'
       /\ within_limit h'.
Proof.
  assert (Hcost : token_sum (tokenizer (self (new_block 10 char_tokenizer)))
                            [memory_str oversized_turn] = inr 50%Z)
    by (vm_compute; reflexivity).
  assert (Hlimit : (0 <= token_limit (self (new_block 10 char_tokenizer)) < 50)%Z)
    by (cbn; lia).
  repeat (split; [first [reflexivity | assumption | lia]|]).
  exact (oversized_entry_evicted oversized_turn (new_block 10 char_tokenizer)
           eq_refl Hcost Hlimit (le_n 1)).
Defined.

(** C4: the claim fails.  The tokenizer refuses the second rendered string;
    the call raises, and the block, empty before, holds both strings. *)
Lemma tokenizer_failure_mutates_state :
  fst (_aput 10 [user_says "Hello"; reserved_turn]
             (new_block 50000 strict_tokenizer))
  = Raised (TokenizationError (memory_str reserved_turn))
  /\ memory (new_block 50000 strict_tokenizer) = []
  /\ memory (snd (_aput 10 [user_says "Hello"; reserved_turn]
                        (new_block 50000 strict_tokenizer)))
     = [memory_str (user_says "Hello"); memory_str reserved_turn]
  /\ snd (_aput 10 [user_says "Hello"; reserved_turn]
               (new_block 50000 strict_tokenizer))
     <> new_block 50000 strict_tokenizer.
Proof.
  split; [vm_compute; reflexivity|].
  split; [reflexivity|].
  split; [vm_compute; reflexivity|].
  intros Hsame. apply (f_equal memory) in Hsame. vm_compute in Hsame.
  discriminate.
Qed.

Lemma tokenizer_failure_keeps_appended_witness :
  In (memory_str reserved_turn)
     (memory (new_block 50000 strict_tokenizer)
      ++ map memory_str [user_says "Hello"; reserved_turn])%list
  /\ tokenizer (self (new_block 50000 strict_tokenizer))
               (memory_str reserved_turn) = None
  /\ exists e h',
       _aput 10 [user_says "Hello"; reserved_turn]
             (new_block 50000 strict_tokenizer) = (Raised e, h')
       /\ memory h'
          = (memory (new_block 50000 strict_tokenizer)
             ++ map memory_str [user_says "Hello"; reserved_turn])%list
       /\ evicted h' = evicted (new_block 50000 strict_tokenizer)
       /\ same_object (new_block 50000 strict_tokenizer) h'.
Proof.
  assert (Hin : In (memory_str reserved_turn)
                   (memory (new_block 50000 strict_tokenizer)
                    ++ map memory_str [user_says "Hello"; reserved_turn])%list)
    by (right; left; reflexivity).
  assert (Hfail : tokenizer (self (new_block 50000 strict_tokenizer))
                            (memory_str reserved_turn) = None)
    by (vm_compute; reflexivity).
  split; [exact Hin|]. split; [exact Hfail|].
  exact (tokenizer_failure_keeps_appended 10 [user_says "Hello"; reserved_turn]
           (new_block 50000 strict_tokenizer) _ Hin Hfail).
Defined.

(** C9: the claim fails.  With [token_limit = -1] the empty list already
    costs more than the limit (0 tokens), a round of the loop drops
    nothing, and no amount of fuel lets the call return, although the
    tokenizer never raises. *)
Lemma negative_limit_never_returns :
  ~ (exists fuel h',
       _aput fuel [] (new_block (-1) char_tokenizer) = (Returned tt, h')).
Proof.
  intros (fuel & h' & Hrun).
  destruct (aput_spec _ _ _ Hrun) as ((_ & Hlimit & _) & (n & Hn & Hle) & _).
  pose proof (@costs_nonneg _ _ _ Hn) as Hnonneg.
  rewrite Hlimit in Hle. cbn in Hle. lia.
Qed.

Lemma eviction_terminates_witness :
  (0 <= token_limit (self (new_block 100 char_tokenizer)))%Z
  /\ total_tokenizer (tokenizer (self (new_block 100 char_tokenizer)))
  /\ exists h' dropped,
       _aput (length (memory (new_block 100 char_tokenizer))
              + length initial_messages)
             initial_messages (new_block 100 char_tokenizer)
       = (Returned tt, h')
       /\ evicted h'
          = (evicted (new_block 100 char_tokenizer) ++ dropped)%list
       /\ (memory (new_block 100 char_tokenizer)
           ++ map memory_str initial_messages)%list
          = (dropped ++ memory h')%list
       /\ length dropped
          <= length (memory (new_block 100 char_tokenizer))
             + length initial_messages
       /\ _aput (length dropped) initial_messages
                (new_block 100 char_tokenizer)
          = (Returned tt, h')
       /\ forall fuel,
            length dropped <= fuel ->
            _aput fuel initial_messages (new_block 100 char_tokenizer)
            = (Returned tt, h').
Proof.
  assert (Hlimit : (0 <= token_limit (self (new_block 100 char_tokenizer)))%Z)
    by (cbn; lia).
  split; [exact Hlimit|]. split; [exact char_tokenizer_total|].
  exact (eviction_terminates initial_messages (new_block 100 char_tokenizer)
           Hlimit char_tokenizer_total).
Defined.

(** The notebook's configuration, with one token per character: the
    threshold is 6 tokens, the four rendered turns cost 291. *)
Lemma round_trip_witness :
  token_sum char_tokenizer (map memory_str initial_messages) = inr 291%Z
  /\ (291 <= 60000)%Z
  /\ Forall (fun m =>
               exists c,
                 token_sum char_tokenizer [memory_str m] = inr c
                 /\ ((1 # 10000)%Q * inject_Z 60000 < inject_Z c)%Q)
            initial_messages
  /\ exists s,
       Session.append 10 true (new_session 60000 char_tokenizer (1 # 10000)%Q)
                      initial_messages
       = (Returned tt, s)
       /\ Session.live_window s = []
       /\ memory (Session.condensation s) = map canonical_form initial_messages
       /\ evicted (Session.condensation s) = []
       /\ _aget None (Session.condensation s)
          = (Returned condensed_text, Session.condensation s)
       /\ Session.render s
          = [Session.synthetic_turn Session.insert_user condensed_text]
       /\ _aput 10 initial_messages (new_block 60000 char_tokenizer)
          = (Returned tt, Session.condensation s).
Proof.
  assert (Hsum : token_sum char_tokenizer (map memory_str initial_messages)
                 = inr 291%Z) by (vm_compute; reflexivity).
  assert (Hroom : (291 <= 60000)%Z) by lia.
  assert (Hover : Forall (fun m =>
                            exists c,
                              token_sum char_tokenizer [memory_str m] = inr c
                              /\ ((1 # 10000)%Q * inject_Z 60000 < inject_Z c)%Q)
                         initial_messages).
  { repeat constructor; eexists; (split; [vm_compute; reflexivity|]);
      vm_compute; reflexivity. }
  split; [exact Hsum|]. split; [exact Hroom|]. split; [exact Hover|].
  exact (@round_trip 10 60000%Z char_tokenizer (1 # 10000)%Q 291%Z
           Hsum Hroom Hover).
Defined.

(** C8: the claim fails.  With a ratio of -1 the flush of the four turns
    returns with an empty window, whose cost 0 is above the threshold: the
    session is still [OVER_BUDGET].  With [token_limit = -1] and a ratio of
    1 the first turn has to move, the block's loop never ends, and no
    amount of fuel lets the flush return. *)
Lemma flush_leaves_over_budget :
  (Session.budget_state
     (with_initial_messages (new_session 60000 char_tokenizer (-1 # 1)%Q))
   = inr Session.OVER_BUDGET
   /\ fst (Session.flush 10
             (with_initial_messages
                (new_session 60000 char_tokenizer (-1 # 1)%Q)))
      = Returned tt
   /\ Session.live_window
        (snd (Session.flush 10
                (with_initial_messages
                   (new_session 60000 char_tokenizer (-1 # 1)%Q))))
      = []
   /\ Session.budget_state
        (snd (Session.flush 10
                (with_initial_messages
                   (new_session 60000 char_tokenizer (-1 # 1)%Q))))
      = inr Session.OVER_BUDGET)
  /\ ~ (exists fuel s2,
          Session.flush fuel
            (with_initial_messages (new_session (-1) char_tokenizer 1%Q))
          = (Returned tt, s2)).
Proof.
  split; [repeat split; vm_compute; reflexivity|].
  intros (fuel & s2 & Hflush).
  unfold Session.flush in Hflush.
  change (Session.live_window
            (with_initial_messages (new_session (-1) char_tokenizer 1%Q)))
    with initial_messages in Hflush.
  change (Session.condensation
            (with_initial_messages (new_session (-1) char_tokenizer 1%Q)))
    with (new_block (-1) char_tokenizer) in Hflush.
  change (Session.chat_history_token_ratio
            (with_initial_messages (new_session (-1) char_tokenizer 1%Q)))
    with 1%Q in Hflush.
  destruct (Session.flush_window fuel 1 initial_messages
              (new_block (-1) char_tokenizer)) as [out h'] eqn:Hwindow.
  unfold initial_messages in Hwindow. cbn [Session.flush_window] in Hwindow.
  replace (Session.window_cost (new_block (-1) char_tokenizer) _)
    with (inr 291%Z : Exception + Z) in Hwindow by (vm_compute; reflexivity).
  replace (Session.within_threshold 1 (new_block (-1) char_tokenizer) 291)
    with false in Hwindow by (vm_compute; reflexivity).
  cbn [bind Monad_Py] in Hwindow.
  destruct (_aput fuel [user_says "Hello! My name is Logan"]
                  (new_block (-1) char_tokenizer))
    as [[[]|e|] mid] eqn:Hput.
  - destruct (aput_spec _ _ _ Hput)
      as ((_ & Hlimit & _) & (n & Hn & Hle) & _).
    pose proof (@costs_nonneg _ _ _ Hn) as Hnonneg.
    rewrite Hlimit in Hle. cbn in Hle. lia.
  - injection Hwindow as <- <-. discriminate.
  - injection Hwindow as <- <-. discriminate.
Qed.

(** A threshold of 150 tokens: the flush returns, moves the three oldest
    turns and keeps the newest, which costs 78. *)
Lemma flush_restores_budget_witness :
  Session.appends 10 (new_session 60000 char_tokenizer (1 # 400)%Q)
                  [(false, initial_messages)]
  = (Returned tt,
     with_initial_messages (new_session 60000 char_tokenizer (1 # 400)%Q))
  /\ (0 <= token_limit
             (self (Session.condensation
                      (with_initial_messages
                         (new_session 60000 char_tokenizer (1 # 400)%Q)))))%Z
  /\ (0 <= Session.chat_history_token_ratio
             (with_initial_messages
                (new_session 60000 char_tokenizer (1 # 400)%Q))
           * inject_Z
               (token_limit
                  (self (Session.condensation
                           (with_initial_messages
                              (new_session 60000 char_tokenizer
                                           (1 # 400)%Q))))))%Q
  /\ total_tokenizer
       (tokenizer
          (self (Session.condensation
                   (with_initial_messages
                      (new_session 60000 char_tokenizer (1 # 400)%Q)))))
  /\ length (memory (Session.condensation
                       (with_initial_messages
                          (new_session 60000 char_tokenizer (1 # 400)%Q))))
     + length (Session.live_window
                 (with_initial_messages
                    (new_session 60000 char_tokenizer (1 # 400)%Q)))
     <= 10
  /\ exists s2 cost,
       Session.flush 10
         (with_initial_messages (new_session 60000 char_tokenizer (1 # 400)%Q))
       = (Returned tt, s2)
       /\ Session.budget_state s2 = inr Session.UNDER_BUDGET
       /\ Session.window_cost (Session.condensation s2)
                              (Session.live_window s2) = inr cost
       /\ (inject_Z cost
           <= Session.chat_history_token_ratio s2
              * inject_Z (token_limit (self (Session.condensation s2))))%Q.
Proof.
  assert (Happends :
            Session.appends 10 (new_session 60000 char_tokenizer (1 # 400)%Q)
                            [(false, initial_messages)]
            = (Returned tt,
               with_initial_messages
                 (new_session 60000 char_tokenizer (1 # 400)%Q)))
    by (vm_compute; reflexivity).
  assert (Hlimit :
            (0 <= token_limit
                    (self (Session.condensation
                             (with_initial_messages
                                (new_session 60000 char_tokenizer
                                             (1 # 400)%Q)))))%Z)
    by (vm_compute; discriminate).
  assert (Hthreshold :
            (0 <= Session.chat_history_token_ratio
                    (with_initial_messages
                       (new_session 60000 char_tokenizer (1 # 400)%Q))
                  * inject_Z
                      (token_limit
                         (self (Session.condensation
                                  (with_initial_messages
                                     (new_session 60000 char_tokenizer
                                                  (1 # 400)%Q))))))%Q)
    by (vm_compute; discriminate).
  assert (Hfuel :
            length (memory (Session.condensation
                              (with_initial_messages
                                 (new_session 60000 char_tokenizer
                                              (1 # 400)%Q))))
            + length (Session.live_window
                        (with_initial_messages
                           (new_session 60000 char_tokenizer (1 # 400)%Q)))
            <= 10)
    by (cbn; lia).
  split; [exact Happends|]. split; [exact Hlimit|]. split; [exact Hthreshold|].
  split; [exact char_tokenizer_total|]. split; [exact Hfuel|].
  exact (proj2 (@flush_restores_budget _ 10 [(false, initial_messages)]
                  (new_session 60000 char_tokenizer (1 # 400)%Q) _ Happends)
               Hlimit Hthreshold char_tokenizer_total Hfuel).
Defined.

(** The tool result of the agent run: the image block and the session
    identifier leave no trace, the tool call identifier is displayed. *)
Lemma only_text_and_unfiltered_keys_witness :
  In ("tool_call_id", "call_3eFX") (additional_kwargs tool_result)
  /\ "tool_call_id" <> "session_id"
  /\ occurs_in (repr_item ("tool_call_id", "call_3eFX"))
               (memory_str tool_result)
  /\ memory_str tool_result
     = memory_str (mkChatMessage TOOL [TextBlock "1607.0"]
                                 [("tool_call_id", "call_3eFX")])
  /\ In (TextBlock "1607.0") (blocks tool_result)
  /\ occurs_in "1607.0" (memory_str tool_result).
Proof.
  assert (Hin : In ("tool_call_id", "call_3eFX") (additional_kwargs tool_result))
    by (right; left; reflexivity).
  assert (Hne : "tool_call_id" <> "session_id") by discriminate.
  assert (Hblock : In (TextBlock "1607.0") (blocks tool_result))
    by (left; reflexivity).
  split; [exact Hin|]. split; [exact Hne|]. split; [|split; [|split]].
  - exact (proj1 (proj2 (proj2 (proj2 (proj2 (proj2
             (only_text_and_unfiltered_keys TOOL
                [TextBlock "1607.0"; ImageBlock "chart.png"]
                [("session_id", "test-mem-01"); ("tool_call_id", "call_3eFX")]))))))
             "tool_call_id" "call_3eFX" Hin Hne).
  - vm_compute. reflexivity.
  - exact Hblock.
  - exact (proj2 (proj2 (proj2 (proj2 (proj2 (proj2 (proj2
             (only_text_and_unfiltered_keys TOOL
                [TextBlock "1607.0"; ImageBlock "chart.png"]
                [("session_id", "test-mem-01"); ("tool_call_id", "call_3eFX")])))))))
             "1607.0" Hblock).
Defined.

(** The rendered forms of the notebook's recorded output. *)
Example rendered_tool_result :
  memory_str tool_result
  = "<message role=MessageRole.TOOL>" ++ nl ++ "1607.0" ++ nl
    ++ "({'tool_call_id': 'call_3eFX'})" ++ nl ++ "</message>".
Proof. vm_compute. reflexivity. Qed.

Example rendered_initial_messages :
  join nl (map memory_str initial_messages) = condensed_text.
Proof. vm_compute. reflexivity. Qed.

Example follow_up_stays_live :
  Session.render
    (snd (Session.append 10 false
            (snd (Session.append 10 true
                    (new_session 60000 char_tokenizer (1 # 10000)%Q)
                    initial_messages))
            [follow_up]))
  = [Session.synthetic_turn Session.insert_user condensed_text; follow_up].
Proof. vm_compute. reflexivity. Qed.

(** * Further properties of the block *)

(** ** Splitting a list at the limit *)

Lemma token_sum_app_inl (enc : Encoding) (xs ys : list string) (e : Exception) :
  token_sum enc xs = inl e -> token_sum enc (xs ++ ys)%list = inl e.
Proof.
  induction xs as [|x xs IH]; [rewrite token_sum_nil; discriminate|].
  cbn [app]. rewrite !token_sum_cons. destruct (enc x); [|auto].
  destruct (token_sum enc xs) as [e'|n]; [|discriminate].
  intros [= <-]. now rewrite (IH eq_refl).
Qed.

Lemma costs_suffix (enc : Encoding) (front s : list string) (n : Z) :
  token_sum enc (front ++ s)%list = inr n ->
  exists k, token_sum enc s = inr k /\ (0 <= k <= n)%Z.
Proof.
  intros Hsum. destruct (costs_app _ _ Hsum) as (a & k & Ha & Hk & ->).
  exists k. split; [exact Hk|].
  pose proof (@costs_nonneg _ _ _ Ha). pose proof (@costs_nonneg _ _ _ Hk). lia.
Qed.

(** When strings were cut from the front only while the rest was above the
    limit, every suffix of the list that fits is part of what is left. *)
Lemma fitting_suffix_kept (enc : Encoding) (limit : Z)
  (dropped kept front s : list string) :
  (dropped ++ kept)%list = (front ++ s)%list ->
  (forall before d, dropped = (before ++ [d])%list ->
     exists c, token_sum enc (d :: kept) = inr c /\ (limit < c)%Z) ->
  fits enc limit s ->
  suffix_of s kept.
Proof.
  intros Hsplit Hmin (n & Hn & Hle).
  apply app_eq_app in Hsplit as [l [[Hd Hs]|[Hf Hk]]].
  - destruct l as [|x0 l0]; [exists []; now rewrite Hs|].
    destruct (@exists_last _ (x0 :: l0)) as (l' & x & Hl); [discriminate|].
    rewrite Hl in Hd, Hs. rewrite app_assoc in Hd.
    destruct (Hmin _ _ Hd) as (c & Hc & Hlt).
    rewrite <- app_assoc in Hs. cbn [app] in Hs. rewrite Hs in Hn.
    destruct (@costs_suffix _ _ _ _ Hn) as (k & Hk & Hrange).
    rewrite Hc in Hk. injection Hk as <-. lia.
  - now exists l.
Qed.

Lemma split_unique (enc : Encoding) (limit : Z) (d1 k1 d2 k2 : list string) :
  (d1 ++ k1)%list = (d2 ++ k2)%list ->
  (forall before d, d1 = (before ++ [d])%list ->
     exists c, token_sum enc (d :: k1) = inr c /\ (limit < c)%Z) ->
  (forall before d, d2 = (before ++ [d])%list ->
     exists c, token_sum enc (d :: k2) = inr c /\ (limit < c)%Z) ->
  fits enc limit k1 ->
  fits enc limit k2 ->
  d1 = d2 /\ k1 = k2.
Proof.
  intros Hsplit Hmin1 Hmin2 Hfit1 Hfit2.
  destruct (@fitting_suffix_kept _ _ _ _ _ _ Hsplit Hmin1 Hfit2) as [g Hg].
  destruct (@fitting_suffix_kept _ _ _ _ _ _ (eq_sym Hsplit) Hmin2 Hfit1)
    as [g' Hg'].
  assert (g = []) as ->.
  { apply (f_equal (@length string)) in Hg, Hg'.
    rewrite length_app in Hg, Hg'.
    destruct g; [reflexivity | cbn in Hg; lia]. }
  cbn in Hg. subst k1. split; [|reflexivity].
  now apply app_inv_tail in Hsplit.
Qed.

Lemma heap_eq (h1 h2 : Heap) :
  same_object h1 h2 ->
  memory h2 = memory h1 ->
  evicted h2 = evicted h1 ->
  h2 = h1.
Proof.
  destruct h1 as [[n1 m1 l1 t1] e1], h2 as [[n2 m2 l2 t2] e2].
  unfold same_object, memory. cbn. intros (-> & -> & ->) -> ->. reflexivity.
Qed.

Lemma aput_returned_sum `{Python} (fuel : nat) (messages : list ChatMessage)
  (h h' : Heap) :
  _aput fuel messages h = (Returned tt, h') ->
  exists n,
    token_sum (tokenizer (self h)) (memory h ++ map memory_str messages)%list
    = inr n.
Proof.
  rewrite aput_eq, trim_eq.
  change (tokenizer (self (appended h messages))) with (tokenizer (self h)).
  change (memory (appended h messages))
    with (memory h ++ map memory_str messages)%list.
  destruct (token_sum (tokenizer (self h))
                      (memory h ++ map memory_str messages)%list) as [e|n];
    [discriminate | now exists n].
Qed.

(** ** One call or several *)

(** Putting [xs ++ ys] in one call that returns is putting [xs], then
    [ys]. *)
Lemma aput_app `{Python} (fuel : nat) (xs ys : list ChatMessage) (h h' : Heap) :
  _aput fuel (xs ++ ys)%list h = (Returned tt, h') ->
  exists mid,
    _aput fuel xs h = (Returned tt, mid)
    /\ _aput fuel ys mid = (Returned tt, h').
Proof.
  intros Hrun.
  destruct (aput_spec _ _ _ Hrun)
    as ((Hname & Hlim & Htok) & (n' & Hn' & Hle') & D & Hev & Hm & Hlen & Hmin).
  destruct (aput_returned_sum _ _ _ Hrun) as [N HN].
  pose proof (@costs_nonneg _ _ _ Hn') as Hn0.
  assert (Hlimit : (0 <= token_limit (self h))%Z) by (rewrite <- Hlim; lia).
  rewrite map_app in HN, Hm.
  set (big := length (memory h) + length xs + length ys + fuel).
  (* the first call, with fuel to spare *)
  destruct (_aput big xs h) as [out1 mid] eqn:H1.
  destruct (aput_spec _ _ _ H1) as ((Hname1 & Hlim1 & Htok1) & Hout1).
  destruct out1 as [[]|e|].
  2:{ destruct Hout1 as (_ & Hfail).
      rewrite app_assoc in HN.
      rewrite (@token_sum_app_inl _ _ (map memory_str ys) _ Hfail) in HN.
      discriminate. }
  2:{ destruct Hout1 as [Hneg|Hshort]; [lia | unfold big in Hshort; lia]. }
  destruct Hout1 as (Hfit1 & d1 & Hev1 & Hm1 & _ & Hmin1).
  (* the second call *)
  destruct (_aput big ys mid) as [out2 h2] eqn:H2.
  destruct (aput_spec _ _ _ H2) as ((Hname2 & Hlim2 & Htok2) & Hout2).
  assert (Hall : (memory h ++ map memory_str xs ++ map memory_str ys)%list
                 = (d1 ++ memory mid ++ map memory_str ys)%list)
    by (now rewrite !app_assoc, Hm1).
  destruct out2 as [[]|e|].
  2:{ destruct Hout2 as (_ & Hfail). rewrite Hall in HN.
      destruct (@costs_suffix _ _ _ _ HN) as (k & Hk & _).
      rewrite Htok1 in Hfail. congruence. }
  2:{ destruct Hout2 as [Hneg|Hshort]; [lia|].
      apply (f_equal (@length string)) in Hm1.
      rewrite !length_app, length_map in Hm1. unfold big in Hshort. lia. }
  destruct Hout2 as ((n2 & Hn2 & Hle2) & d2 & Hev2 & Hm2 & _ & Hmin2).
  rewrite Htok1 in Hmin2, Htok2. rewrite Hlim1 in Hmin2, Hlim2.
  rewrite Htok2 in Hn2. rewrite Hlim2 in Hle2.
  (* both runs cut the same list at the same place *)
  assert (Hsplit : ((d1 ++ d2) ++ memory h2)%list = (D ++ memory h')%list)
    by (now rewrite <- Hm, Hall, <- app_assoc, Hm2).
  destruct (@split_unique (tokenizer (self h)) (token_limit (self h))
              (d1 ++ d2)%list (memory h2) D (memory h') Hsplit)
    as [HD Hkept].
  { intros before d Hlast. destruct d2 as [|y0 d2'].
    - rewrite app_nil_r in Hlast. cbn [app] in Hm2.
      destruct (Hmin1 _ _ Hlast) as (c & Hc & Hlt).
      rewrite <- Hm2 in Hn2 |- *.
      destruct (costs_app _ _ Hn2) as (a & b & _ & Hb & _).
      pose proof (@costs_nonneg _ _ _ Hb) as Hb0.
      exists (c + b)%Z. split; [|lia].
      change (d :: memory mid ++ map memory_str ys)%list
        with ((d :: memory mid) ++ map memory_str ys)%list.
      now apply costs_app_intro.
    - destruct (@exists_last _ (y0 :: d2')) as (pre & y & Hy); [discriminate|].
      rewrite Hy, app_assoc in Hlast.
      apply app_inj_tail in Hlast as [_ <-].
      exact (Hmin2 _ _ Hy). }
  { exact Hmin. }
  { exists n2. now split. }
  { exists n'. rewrite Htok in Hn'. rewrite Hlim in Hle'. now split. }
  assert (Hsame : h2 = h').
  { apply heap_eq.
    - unfold same_object. rewrite Hname, Hlim, Htok, Hname2, Hlim2, Htok2.
      now rewrite Hname1.
    - exact Hkept.
    - now rewrite Hev2, Hev1, Hev, <- HD, app_assoc. }
  subst h2.
  assert (Hd1 : length d1 <= fuel)
    by (rewrite <- HD, length_app in Hlen; lia).
  assert (Hd2 : length d2 <= fuel)
    by (rewrite <- HD, length_app in Hlen; lia).
  exists mid. split.
  - destruct (@aput_rounds _ _ _ _ _ H1) as (r1 & Hr1 & Hrounds1).
    rewrite Hev1 in Hr1. apply app_inv_head in Hr1 as <-.
    apply (@aput_more_fuel _ _ fuel _ _ _ _ Hrounds1); [discriminate | exact Hd1].
  - destruct (@aput_rounds _ _ _ _ _ H2) as (r2 & Hr2 & Hrounds2).
    rewrite Hev2 in Hr2. apply app_inv_head in Hr2 as <-.
    apply (@aput_more_fuel _ _ fuel _ _ _ _ Hrounds2); [discriminate | exact Hd2].
Qed.

Lemma appended_nil `{Python} (h : Heap) : appended h [] = h.
Proof.
  destruct h as [[nm mem lim tok] ev]. unfold appended, memory. cbn.
  now rewrite app_nil_r.
Qed.

(** X1.  One call or several.  When a single [_aput] of all the messages
    returns, putting the same messages in any number of consecutive calls,
    cut anywhere, returns too and leaves the same block, with the same
    strings dropped in the same order. *)
Theorem one_call_or_several `{Python} (fuel : nat)
  (calls : list (list ChatMessage)) (h h' : Heap) :
  calls <> [] ->
  _aput fuel (concat calls) h = (Returned tt, h') ->
  aput_calls fuel calls h = (Returned tt, h').
Proof.
  revert h. induction calls as [|first rest IH]; intros h Hne Hrun;
    [now destruct Hne|].
  destruct rest as [|second rest].
  - cbn [concat] in Hrun. rewrite app_nil_r in Hrun. cbn. now rewrite Hrun.
  - change (concat (first :: second :: rest))
      with (first ++ concat (second :: rest))%list in Hrun.
    destruct (@aput_app _ _ _ _ _ _ Hrun) as (mid & Hfirst & Hrest).
    change (aput_calls fuel (first :: second :: rest) h)
      with (bind (_aput fuel first)
                 (fun _ => aput_calls fuel (second :: rest)) h).
    cbn [bind Monad_Py]. rewrite Hfirst.
    apply IH; [discriminate | exact Hrest].
Qed.

(** X2.  The newest entry.  After a call that returns, the string rendered
    from the last message of the call is still in the block, as its last
    entry, when that string alone costs at most [token_limit]; when it
    alone costs more, the block is empty and every string, old and new, has
    been dropped. *)
Theorem newest_entry_kept_iff_it_fits `{Python} (fuel : nat)
  (before : list ChatMessage) (last : ChatMessage) (h h' : Heap) (c : Z) :
  _aput fuel (before ++ [last])%list h = (Returned tt, h') ->
  token_sum (tokenizer (self h)) [memory_str last] = inr c ->
  ((c <= token_limit (self h))%Z ->
   suffix_of [memory_str last] (memory h'))
  /\ ((token_limit (self h) < c)%Z ->
      memory h' = []
      /\ evicted h'
         = (evicted h ++ memory h
            ++ map memory_str (before ++ [last]))%list).
Proof.
  intros Hrun Hc.
  destruct (aput_spec _ _ _ Hrun)
    as ((_ & Hlim & Htok) & (n' & Hn' & Hle') & D & Hev & Hm & _ & Hmin).
  rewrite map_app in Hm. cbn [map] in Hm. rewrite app_assoc in Hm.
  split.
  - intros Hfits.
    apply (@fitting_suffix_kept (tokenizer (self h)) (token_limit (self h))
             D (memory h') (memory h ++ map memory_str before)%list
             [memory_str last]); [now symmetry | exact Hmin |].
    exists c. now split.
  - intros Hover.
    assert (Hempty : memory h' = []).
    { destruct (memory h') as [|k0 kept] eqn:Hkept; [reflexivity|].
      destruct (@exists_last _ (k0 :: kept)) as (pre & x & Hx); [discriminate|].
      rewrite Hx, app_assoc in Hm. apply app_inj_tail in Hm as [_ <-].
      rewrite Hx, Htok in Hn'.
      destruct (@costs_suffix _ _ _ _ Hn') as (k & Hk & Hrange).
      rewrite Hc in Hk. injection Hk as <-. lia. }
    split; [exact Hempty|].
    rewrite Hempty, app_nil_r in Hm. rewrite Hev, <- Hm, map_app.
    cbn [map]. now rewrite <- !app_assoc.
Qed.

(** X3.  Nothing is dropped exactly when everything fits.  A call that
    returns has dropped no string if and only if the old strings and the
    new ones together can be tokenized and cost at most [token_limit]; the
    block then holds the old strings followed by the new ones. *)
Theorem nothing_dropped_iff_all_fits `{Python} (fuel : nat)
  (messages : list ChatMessage) (h h' : Heap) :
  _aput fuel messages h = (Returned tt, h') ->
  (evicted h' = evicted h
   <-> fits (tokenizer (self h)) (token_limit (self h))
            (memory h ++ map memory_str messages)%list)
  /\ (evicted h' = evicted h ->
      memory h' = (memory h ++ map memory_str messages)%list).
Proof.
  intros Hrun.
  destruct (aput_spec _ _ _ Hrun)
    as ((_ & Hlim & Htok) & (n' & Hn' & Hle') & D & Hev & Hm & _ & _).
  assert (Hkeep : evicted h' = evicted h ->
                  memory h' = (memory h ++ map memory_str messages)%list).
  { intros Hsame. rewrite Hev in Hsame.
    rewrite <- (app_nil_r (evicted h)) in Hsame at 2.
    apply app_inv_head in Hsame. subst D. now rewrite Hm. }
  split; [split|exact Hkeep].
  - intros Hsame. exists n'. rewrite <- (Hkeep Hsame), <- Htok, <- Hlim.
    now split.
  - intros (n & Hn & Hle). rewrite (aput_fits fuel messages h Hn Hle) in Hrun.
    now injection Hrun as <-.
Qed.

(** X4.  Putting nothing.  After a call that returned, a call with an
    empty list of messages returns at once, with any fuel, and changes
    nothing. *)
Theorem empty_put_changes_nothing `{Python} (fuel fuel' : nat)
  (messages : list ChatMessage) (h h' : Heap) :
  _aput fuel messages h = (Returned tt, h') ->
  _aput fuel' [] h' = (Returned tt, h').
Proof.
  intros Hrun.
  destruct (aput_spec _ _ _ Hrun) as (_ & (n' & Hn' & Hle') & _).
  rewrite (@aput_fits _ fuel' [] h' n'); [now rewrite appended_nil | | exact Hle'].
  cbn [map]. now rewrite app_nil_r.
Qed.

(** X5.  A failure is permanent.  Once a call has raised, every later call
    raises the same error, whatever its messages and fuel, and only appends
    its rendered strings: the block is never trimmed again. *)
Theorem failure_is_permanent `{Python} (fuel fuel' : nat)
  (messages messages' : list ChatMessage) (h h' : Heap) (e : Exception) :
  _aput fuel messages h = (Raised e, h') ->
  _aput fuel' messages' h' = (Raised e, appended h' messages').
Proof.
  intros Hrun.
  destruct (aput_spec _ _ _ Hrun) as (_ & -> & Hfail).
  rewrite aput_eq, trim_eq.
  change (tokenizer (self (appended (appended h messages) messages')))
    with (tokenizer (self h)).
  change (memory (appended (appended h messages) messages'))
    with ((memory h ++ map memory_str messages)
          ++ map memory_str messages')%list.
  now rewrite (@token_sum_app_inl _ _ (map memory_str messages') _ Hfail).
Qed.

(** X6.  The longest suffix that fits.  After a call that returns, the
    block holds a suffix of the old strings followed by the new ones that
    fits the limit, and every suffix of that list that fits the limit is a
    suffix of what the block holds. *)
Theorem keeps_longest_fitting_suffix `{Python} (fuel : nat)
  (messages : list ChatMessage) (h h' : Heap) :
  _aput fuel messages h = (Returned tt, h') ->
  suffix_of (memory h') (memory h ++ map memory_str messages)%list
  /\ fits (tokenizer (self h)) (token_limit (self h)) (memory h')
  /\ forall s,
       suffix_of s (memory h ++ map memory_str messages)%list ->
       fits (tokenizer (self h)) (token_limit (self h)) s ->
       suffix_of s (memory h').
Proof.
  intros Hrun.
  destruct (aput_spec _ _ _ Hrun)
    as ((_ & Hlim & Htok) & (n' & Hn' & Hle') & D & Hev & Hm & _ & Hmin).
  split; [now exists D|]. split.
  - exists n'. rewrite <- Htok, <- Hlim. now split.
  - intros s [front Hfront] Hfits.
    apply (@fitting_suffix_kept (tokenizer (self h)) (token_limit (self h))
             D (memory h') front s); [now rewrite <- Hm | exact Hmin | exact Hfits].
Qed.

(** ** Reading after writing *)

Lemma join_app (sep : string) (xs ys : list string) :
  xs <> [] -> ys <> [] ->
  join sep (xs ++ ys)%list = join sep xs ++ sep ++ join sep ys.
Proof.
  intros Hxs Hys. induction xs as [|x [|x' rest] IH]; [now destruct Hxs| |].
  - destruct ys as [|y ys]; [now destruct Hys | reflexivity].
  - change (join sep ((x :: x' :: rest) ++ ys)%list)
      with (x ++ sep ++ join sep ((x' :: rest) ++ ys)%list).
    rewrite IH by discriminate.
    change (join sep (x :: x' :: rest)) with (x ++ sep ++ join sep (x' :: rest)).
    now rewrite !append_assoc.
Qed.

(** X7.  Reading after writing.  When the block is not empty, the call has
    messages, and the old strings and the new ones together fit the limit,
    [_aput] followed by [_aget] returns the text [_aget] returned before,
    a line feed, and the rendered messages joined by line feeds: the
    condensed text only grows at its end. *)
Theorem put_then_get_extends_text `{Python} (fuel : nat)
  (messages : list ChatMessage) (h : Heap) (before : string) :
  memory h <> [] ->
  messages <> [] ->
  fits (tokenizer (self h)) (token_limit (self h))
       (memory h ++ map memory_str messages)%list ->
  _aget None h = (Returned before, h) ->
  (_aput fuel messages ;; _aget None) h
  = (Returned (before ++ nl ++ join nl (map memory_str messages)),
     appended h messages).
Proof.
  intros Hold Hnew (n & Hn & Hle) Hbefore.
  cbn [bind Monad_Py]. rewrite (aput_fits fuel messages h Hn Hle).
  unfold _aget in *. injection Hbefore as <-. f_equal. f_equal.
  change (memory (appended h messages))
    with (memory h ++ map memory_str messages)%list.
  apply join_app; [exact Hold|].
  destruct messages; [now destruct Hnew | discriminate].
Qed.

(** ** The text line *)

Lemma append_inv_head (a b c : string) : a ++ b = a ++ c -> b = c.
Proof.
  induction a as [|ch a IH]; cbn; [auto|]. intros [= Heq]. now apply IH.
Qed.

Lemma length_append (a b : string) :
  String.length (a ++ b) = String.length a + String.length b.
Proof. induction a as [|ch a IH]; cbn; [reflexivity | now rewrite IH]. Qed.

Lemma append_eq_self (x c : string) : x ++ c = c -> x = "".
Proof.
  intros Heq. apply (f_equal String.length) in Heq.
  rewrite length_append in Heq. destruct x; [reflexivity | cbn in Heq; lia].
Qed.

Lemma join_nl_empty (items : list string) :
  join nl items = "" <-> items = [] \/ items = [""].
Proof.
  split.
  - destruct items as [|x [|y rest]]; [now left | cbn; intros ->; now right |].
    change (join nl (x :: y :: rest)) with (x ++ nl ++ join nl (y :: rest)).
    destruct x; discriminate.
  - now intros [-> | ->].
Qed.

(** X8.  The text line.  The rendered string has no text line, that is, it
    equals the rendering of the same message without any content block,
    exactly when the message has no text block or a single text block that
    is empty.  Two empty text blocks already give a line. *)
Theorem text_line_omitted_iff `{Python} (m : ChatMessage) :
  memory_str m = memory_str (without_blocks m)
  <-> text_blocks (blocks m) = [] \/ text_blocks (blocks m) = [""].
Proof.
  rewrite !memory_str_canonical. unfold canonical_form.
  change (role (without_blocks m)) with (role m).
  change (text_part (without_blocks m)) with "".
  change (aux_part (without_blocks m)) with (aux_part m).
  rewrite <- join_nl_empty.
  assert (Htext : text_part m = "" <-> join nl (text_blocks (blocks m)) = "").
  { unfold text_part, text_segments. rewrite <- text_blocks_filter.
    replace (String.concat nl (text_blocks (blocks m)))
      with (join nl (text_blocks (blocks m))) by apply join_concat.
    destruct (String.eqb (join nl (text_blocks (blocks m))) "") eqn:Hempty.
    - apply String.eqb_eq in Hempty. now rewrite Hempty.
    - apply String.eqb_neq in Hempty. split; [discriminate | intros; contradiction]. }
  rewrite <- Htext. split.
  - intros Heq. apply append_inv_head in Heq. cbn [append] in Heq.
    now apply append_eq_self in Heq.
  - now intros ->.
Qed.

(** * The Self-Discover workflow *)

Section WorkflowProperties.

Import SelfDiscover.

Variable LLM : Type.
Variable CompletionResponse : Type.
Variable complete : LLM -> string -> CompletionResponse.
Variable str : CompletionResponse -> string.
Variable format : PromptTemplate -> list (string * string) -> string.

(** X9.  Required arguments.  [get_modules] raises its [ValueError] exactly
    when [task] or [llm] is missing; the run then ends with that error, the
    store is untouched and no completion was asked for. *)
Theorem missing_argument_is_refused (ev : StartEvent LLM) (ctx : Context LLM) :
  (task ev = None \/ llm ev = None ->
   get_modules complete str format ev ctx
   = (Fail (ValueError "'task' and 'llm' arguments are required."), ctx)
   /\ run complete str format ev ctx
      = (Fail (ValueError "'task' and 'llm' arguments are required."), ctx))
  /\ (forall e,
        fst (get_modules complete str format ev ctx) = Fail e ->
        task ev = None \/ llm ev = None).
Proof.
  destruct ev as [[t|] [model|]]; cbn [task llm];
    (split; [intros Hmissing | intros e Hfail]);
    try (split; reflexivity); auto.
  - destruct Hmissing; discriminate.
  - cbn in Hfail. discriminate.
Qed.

(** X10.  A run asks for four completions.  With a task and a model, the
    run returns, and it has asked the model of the start event, and no
    other, for exactly four completions, in order: each prompt is formatted
    from the unchanged task and the text of the previous answer, and the
    result is the last answer.  The store ends with that model under
    [llm], whatever it held there before, and is otherwise unchanged. *)
Theorem run_makes_four_completions (ev : StartEvent LLM) (ctx : Context LLM)
  (t : string) (model : LLM) :
  task ev = Some t ->
  llm ev = Some model ->
  let selected := complete model (select_prompt format t) in
  let adapted := complete model (adapt_prompt str format t selected) in
  let structure := complete model (implement_prompt str format t adapted) in
  let answer := complete model (reasoning_prompt str format t structure) in
  exists ctx',
    run complete str format ev ctx = (Ok answer, ctx')
    /\ completions ctx'
       = (completions ctx
          ++ [ (model, select_prompt format t);
               (model, adapt_prompt str format t selected);
               (model, implement_prompt str format t adapted);
               (model, reasoning_prompt str format t structure) ])%list
    /\ store ctx' "llm" = Some model
    /\ forall key, key <> "llm" -> store ctx' key = store ctx key.
Proof.
  destruct ev as [task0 llm0]. cbn [task llm]. intros -> ->. cbn zeta.
  eexists. split; [reflexivity|]. cbn [completions store].
  split; [now rewrite <- !app_assoc|]. split; [reflexivity|].
  intros key Hkey. apply String.eqb_neq in Hkey. now rewrite Hkey.
Qed.

End WorkflowProperties.

(** * The further properties at concrete inputs *)

Lemma one_call_or_several_witness :
  [initial_messages; [follow_up]] <> []
  /\ _aput 10 (concat [initial_messages; [follow_up]])
           (new_block 100 char_tokenizer)
     = (Returned tt,
        snd (_aput 10 (concat [initial_messages; [follow_up]])
                   (new_block 100 char_tokenizer)))
  /\ aput_calls 10 [initial_messages; [follow_up]]
                (new_block 100 char_tokenizer)
     = (Returned tt,
        snd (_aput 10 (concat [initial_messages; [follow_up]])
                   (new_block 100 char_tokenizer))).
Proof.
  assert (Hne : [initial_messages; [follow_up]] <> []) by discriminate.
  assert (Hrun : _aput 10 (concat [initial_messages; [follow_up]])
                       (new_block 100 char_tokenizer)
                 = (Returned tt,
                    snd (_aput 10 (concat [initial_messages; [follow_up]])
                               (new_block 100 char_tokenizer))))
    by (vm_compute; reflexivity).
  split; [exact Hne|]. split; [exact Hrun|].
  exact (one_call_or_several 10 (new_block 100 char_tokenizer) Hne Hrun).
Defined.

Lemma newest_entry_kept_iff_it_fits_witness :
  _aput 10 (initial_messages ++ [follow_up])%list
        (new_block 100 char_tokenizer)
  = (Returned tt,
     snd (_aput 10 (initial_messages ++ [follow_up])%list
                (new_block 100 char_tokenizer)))
  /\ token_sum (tokenizer (self (new_block 100 char_tokenizer)))
               [memory_str follow_up] = inr 66%Z
  /\ (66 <= token_limit (self (new_block 100 char_tokenizer)))%Z
  /\ suffix_of [memory_str follow_up]
       (memory (snd (_aput 10 (initial_messages ++ [follow_up])%list
                           (new_block 100 char_tokenizer)))).
Proof.
  assert (Hrun : _aput 10 (initial_messages ++ [follow_up])%list
                       (new_block 100 char_tokenizer)
                 = (Returned tt,
                    snd (_aput 10 (initial_messages ++ [follow_up])%list
                               (new_block 100 char_tokenizer))))
    by (vm_compute; reflexivity).
  assert (Hcost : token_sum (tokenizer (self (new_block 100 char_tokenizer)))
                            [memory_str follow_up] = inr 66%Z)
    by (vm_compute; reflexivity).
  assert (Hle : (66 <= token_limit (self (new_block 100 char_tokenizer)))%Z)
    by (cbn; lia).
  split; [exact Hrun|]. split; [exact Hcost|]. split; [exact Hle|].
  exact (proj1 (newest_entry_kept_iff_it_fits 10 initial_messages follow_up
                  (new_block 100 char_tokenizer) Hrun Hcost) Hle).
Defined.

Lemma nothing_dropped_iff_all_fits_witness :
  _aput 10 initial_messages (new_block 50000 char_tokenizer)
  = (Returned tt,
     snd (_aput 10 initial_messages (new_block 50000 char_tokenizer)))
  /\ evicted (snd (_aput 10 initial_messages (new_block 50000 char_tokenizer)))
     = evicted (new_block 50000 char_tokenizer)
  /\ memory (snd (_aput 10 initial_messages (new_block 50000 char_tokenizer)))
     = (memory (new_block 50000 char_tokenizer)
        ++ map memory_str initial_messages)%list.
Proof.
  assert (Hrun : _aput 10 initial_messages (new_block 50000 char_tokenizer)
                 = (Returned tt,
                    snd (_aput 10 initial_messages
                               (new_block 50000 char_tokenizer))))
    by (vm_compute; reflexivity).
  assert (Hsame : evicted (snd (_aput 10 initial_messages
                                      (new_block 50000 char_tokenizer)))
                  = evicted (new_block 50000 char_tokenizer))
    by (vm_compute; reflexivity).
  split; [exact Hrun|]. split; [exact Hsame|].
  exact (proj2 (nothing_dropped_iff_all_fits 10 initial_messages
                  (new_block 50000 char_tokenizer) Hrun) Hsame).
Defined.

Lemma empty_put_changes_nothing_witness :
  _aput 10 initial_messages (new_block 100 char_tokenizer)
  = (Returned tt,
     snd (_aput 10 initial_messages (new_block 100 char_tokenizer)))
  /\ _aput 0 [] (snd (_aput 10 initial_messages (new_block 100 char_tokenizer)))
     = (Returned tt,
        snd (_aput 10 initial_messages (new_block 100 char_tokenizer))).
Proof.
  assert (Hrun : _aput 10 initial_messages (new_block 100 char_tokenizer)
                 = (Returned tt,
                    snd (_aput 10 initial_messages
                               (new_block 100 char_tokenizer))))
    by (vm_compute; reflexivity).
  split; [exact Hrun|].
  exact (@empty_put_changes_nothing _ 10 0 initial_messages
           (new_block 100 char_tokenizer) _ Hrun).
Defined.

Lemma failure_is_permanent_witness :
  _aput 10 [user_says "Hello"; reserved_turn] (new_block 50000 strict_tokenizer)
  = (Raised (TokenizationError (memory_str reserved_turn)),
     snd (_aput 10 [user_says "Hello"; reserved_turn]
                (new_block 50000 strict_tokenizer)))
  /\ _aput 3 [follow_up]
           (snd (_aput 10 [user_says "Hello"; reserved_turn]
                       (new_block 50000 strict_tokenizer)))
     = (Raised (TokenizationError (memory_str reserved_turn)),
        appended (snd (_aput 10 [user_says "Hello"; reserved_turn]
                             (new_block 50000 strict_tokenizer)))
                 [follow_up]).
Proof.
  assert (Hrun : _aput 10 [user_says "Hello"; reserved_turn]
                       (new_block 50000 strict_tokenizer)
                 = (Raised (TokenizationError (memory_str reserved_turn)),
                    snd (_aput 10 [user_says "Hello"; reserved_turn]
                               (new_block 50000 strict_tokenizer))))
    by (vm_compute; reflexivity).
  split; [exact Hrun|].
  exact (@failure_is_permanent _ 10 3 [user_says "Hello"; reserved_turn]
           [follow_up] (new_block 50000 strict_tokenizer) _ _ Hrun).
Defined.

Lemma keeps_longest_fitting_suffix_witness :
  _aput 10 (initial_messages ++ [follow_up])%list
        (new_block 100 char_tokenizer)
  = (Returned tt,
     snd (_aput 10 (initial_messages ++ [follow_up])%list
                (new_block 100 char_tokenizer)))
  /\ suffix_of
       (memory (snd (_aput 10 (initial_messages ++ [follow_up])%list
                           (new_block 100 char_tokenizer))))
       (memory (new_block 100 char_tokenizer)
        ++ map memory_str (initial_messages ++ [follow_up]))%list.
Proof.
  assert (Hrun : _aput 10 (initial_messages ++ [follow_up])%list
                       (new_block 100 char_tokenizer)
                 = (Returned tt,
                    snd (_aput 10 (initial_messages ++ [follow_up])%list
                               (new_block 100 char_tokenizer))))
    by (vm_compute; reflexivity).
  split; [exact Hrun|].
  exact (proj1 (@keeps_longest_fitting_suffix _ 10
                  (initial_messages ++ [follow_up])%list
                  (new_block 100 char_tokenizer) _ Hrun)).
Defined.

Lemma put_then_get_extends_text_witness :
  memory (appended (new_block 50000 char_tokenizer) initial_messages) <> []
  /\ [follow_up] <> []
  /\ fits (tokenizer (self (appended (new_block 50000 char_tokenizer)
                                     initial_messages)))
          (token_limit (self (appended (new_block 50000 char_tokenizer)
                                       initial_messages)))
          (memory (appended (new_block 50000 char_tokenizer) initial_messages)
           ++ map memory_str [follow_up])%list
  /\ _aget None (appended (new_block 50000 char_tokenizer) initial_messages)
     = (Returned condensed_text,
        appended (new_block 50000 char_tokenizer) initial_messages)
  /\ (_aput 10 [follow_up] ;; _aget None)
       (appended (new_block 50000 char_tokenizer) initial_messages)
     = (Returned (condensed_text ++ nl ++ join nl (map memory_str [follow_up])),
        appended (appended (new_block 50000 char_tokenizer) initial_messages)
                 [follow_up]).
Proof.
  assert (Hold : memory (appended (new_block 50000 char_tokenizer)
                                  initial_messages) <> [])
    by discriminate.
  assert (Hnew : [follow_up] <> []) by discriminate.
  assert (Hfits : fits (tokenizer (self (appended (new_block 50000 char_tokenizer)
                                                  initial_messages)))
                       (token_limit (self (appended
                                             (new_block 50000 char_tokenizer)
                                             initial_messages)))
                       (memory (appended (new_block 50000 char_tokenizer)
                                         initial_messages)
                        ++ map memory_str [follow_up])%list)
    by (exists 357%Z; split; [vm_compute; reflexivity | cbn; lia]).
  assert (Hbefore : _aget None (appended (new_block 50000 char_tokenizer)
                                         initial_messages)
                    = (Returned condensed_text,
                       appended (new_block 50000 char_tokenizer)
                                initial_messages))
    by (vm_compute; reflexivity).
  split; [exact Hold|]. split; [exact Hnew|]. split; [exact Hfits|].
  split; [exact Hbefore|].
  exact (@put_then_get_extends_text _ 10 [follow_up]
           (appended (new_block 50000 char_tokenizer) initial_messages)
           condensed_text Hold Hnew Hfits Hbefore).
Defined.

(** An assistant turn that only carries a tool call and an image. *)
Lemma text_line_omitted_iff_witness :
  text_blocks (blocks (mkChatMessage ASSISTANT [ImageBlock "chart.png"]
                                     [("tool_calls", "multiply")])) = []
  /\ memory_str (mkChatMessage ASSISTANT [ImageBlock "chart.png"]
                               [("tool_calls", "multiply")])
     = memory_str (without_blocks
                     (mkChatMessage ASSISTANT [ImageBlock "chart.png"]
                                    [("tool_calls", "multiply")])).
Proof.
  split; [reflexivity|].
  exact (proj2 (text_line_omitted_iff
                  (mkChatMessage ASSISTANT [ImageBlock "chart.png"]
                                 [("tool_calls", "multiply")]))
               (or_introl eq_refl)).
Defined.

Lemma missing_argument_is_refused_witness :
  SelfDiscover.llm SelfDiscover.start_without_model = None
  /\ SelfDiscover.run SelfDiscover.counting_model (fun answer => answer)
       SelfDiscover.brace_format
       SelfDiscover.start_without_model
       SelfDiscover.empty_context
     = (SelfDiscover.Fail
          (SelfDiscover.ValueError "'task' and 'llm' arguments are required."),
        SelfDiscover.empty_context).
Proof.
  split; [reflexivity|].
  exact (proj2 (proj1 (missing_argument_is_refused
                         SelfDiscover.counting_model (fun answer => answer)
                         SelfDiscover.brace_format
                         SelfDiscover.start_without_model
                         SelfDiscover.empty_context)
                      (or_intror eq_refl))).
Defined.

Lemma run_makes_four_completions_witness :
  SelfDiscover.task SelfDiscover.start_with_model = Some "How many oranges?"
  /\ SelfDiscover.llm SelfDiscover.start_with_model = Some "gpt-4o"
  /\ exists ctx',
       fst (SelfDiscover.run SelfDiscover.counting_model (fun answer => answer)
              SelfDiscover.brace_format
              SelfDiscover.start_with_model
              SelfDiscover.empty_context)
       = SelfDiscover.Ok "gpt-4o:4"
       /\ snd (SelfDiscover.run SelfDiscover.counting_model
                 (fun answer => answer) SelfDiscover.brace_format
                 SelfDiscover.start_with_model
                 SelfDiscover.empty_context)
          = ctx'
       /\ length (SelfDiscover.completions ctx') = 4
       /\ SelfDiscover.store ctx' "llm" = Some "gpt-4o".
Proof.
  split; [reflexivity|]. split; [reflexivity|].
  destruct (run_makes_four_completions
              SelfDiscover.counting_model (fun answer => answer)
              SelfDiscover.brace_format
              SelfDiscover.start_with_model
              SelfDiscover.empty_context eq_refl eq_refl)
    as (ctx' & Hrun & Hlog & Hstore & _).
  exists ctx'. rewrite Hrun. cbn [fst snd].
  split; [vm_compute; reflexivity|]. split; [reflexivity|].
  split; [rewrite Hlog; reflexivity | exact Hstore].
Defined.

Example reasoning_modules_items :
  length SelfDiscover._REASONING_MODULES_items = 34.
Proof. reflexivity. Qed.

Example adapt_prompt_filled :
  SelfDiscover.brace_format SelfDiscover.ADAPT_PROMPT_TEMPLATE
    [("task", "T"); ("selected_modules", "M")]
  = "Without working out the full solution, adapt the following reasoning modules to be specific to our task:"
    ++ nl ++ "M" ++ nl ++ nl ++ "Our task:" ++ nl ++ "T".
Proof. vm_compute. reflexivity. Qed.

Example flush_keeps_newest_turn :
  Session.live_window
    (snd (Session.flush 10
            (with_initial_messages
               (new_session 60000 char_tokenizer (1 # 400)%Q))))
  = [assistant_says "The capital of France is Paris"].
Proof. vm_compute. reflexivity. Qed.
